(** * The crop-region geometry engine of the image editor (canvas.js)

    A shallow embedding of [src/js/canvas.js]: the pointer-gesture state
    machine (pointer-down / move / up / double-click), the Area mutators
    (select, resize, move with snap, drag), image loading and the crop
    extractor ([getCroppedCanvas] / [getCanvasSlice]); then the overlay
    of the visible canvas and [src/js/uploaded-images.js], the list of
    uploaded images that initialises the canvas.

    Conventions.
    - JavaScript numbers are modelled as exact rationals ([Q]); NaN and the
      infinities are outside the model, so a division is only meaningful
      for a non-zero divisor.  Quantities the DOM keeps integral (bitmap
      sizes, pixel indices, the results of [Math.round]) are in [Z].
    - The module-level [let]s of canvas.js, the singletons owned by the
      imported modules (area, direction, transform, rotation, flip) and
      the observable part of the DOM are the fields of one [State] that
      every handler threads explicitly.
    - Calls that only paint the visible canvas or notify another module
      are recorded, in order, in the [log] field. *)

From Stdlib Require Import ZArith QArith Qround Qabs Qminmax Bool List String Ascii Lia Lqa.
Import ListNotations.

Local Open Scope Q_scope.

(** ** JavaScript primitives *)

Module JS.

(** [Math.round]: nearest integer, ties towards plus infinity. *)
Definition round (q : Q) : Z := Qfloor (q + (1 # 2)).

(** [a > b] and [a < b] on numbers. *)
Definition gt (a b : Q) : bool :=
  match a ?= b with Gt => true | _ => false end.
Definition lt (a b : Q) : bool :=
  match a ?= b with Lt => true | _ => false end.

(** Truthiness of a number: everything but zero. *)
Definition truthy (q : Q) : bool := negb (Qeq_bool q 0).

(** [s[0] === c]. *)
Definition first_is (c : ascii) (s : string) : bool :=
  match s with
  | String c0 _ => Ascii.eqb c0 c
  | EmptyString => false
  end.

(** [s.split("")]. *)
Definition split_chars (s : string) : list ascii := list_ascii_of_string s.

(** [s.includes(c)] for a one-character [c]; also
    [s.split("").includes(c)]. *)
Definition includes (c : ascii) (s : string) : bool :=
  existsb (Ascii.eqb c) (split_chars s).

End JS.

(** ** Data *)

(** The crop rectangle of area.js, in screen space.  Width and height may
    be negative while a drag is under way. *)
Record Area := mkArea {
  area_x : Q;
  area_y : Q;
  area_width : Q;
  area_height : Q
}.

(** The matrix of transform.js. *)
Record Transform := mkTransform {
  t_a : Q; t_b : Q; t_c : Q; t_d : Q; t_e : Q; t_f : Q
}.

Record Point := mkPoint { pt_x : Q; pt_y : Q }.

(** The flags of flip.js; each is 1 or -1. *)
Record Flip := mkFlip { flipH : Z; flipV : Z }.

(** A pixel as a packed RGBA value; 0 is transparent black. *)
Definition Pixel := Z.
Definition transparent : Pixel := 0%Z.

(** A decoded image: its size and the colour at each pixel position. *)
Record Image := mkImage {
  img_width : Z;
  img_height : Z;
  img_px : Z -> Z -> Pixel
}.

(** The value of [eventToEnable]: "", "select", "resize", "move", "drag". *)
Inductive Gesture := GNone | GSelect | GResize | GMove | GDrag.

(** Callbacks handed to [requestAnimationFrame]. *)
Inductive FrameCallback :=
| FrameDraw       (* drawCanvas *)
| FrameMoveDone.  (* () => { drawCanvas(); handlingMove = false; } *)


(** Calls whose effect lies outside the state: painting the visible canvas,
    notifying the crop panel, and the entry of each per-state mutator with
    the coordinates it was given. *)
Inductive Effect :=
| DrawCanvas
| DrawImage
| ResetCropPanelInputs
| Mutator (g : Gesture) (x y : Q).

(** Exceptions raised by the platform. *)
Inductive Exn :=
| IndexSizeError   (* getImageData with a zero width or height *)
| TypeError.       (* property read on null *)

(** The whole editing session: what the handlers of canvas.js read and
    write. *)
Record State := mkState {
  (* singletons of the imported modules *)
  area : Area;
  direction : string;
  transform : Transform;
  rotation : Q;
  flip : Flip;
  panelVisible : bool;
  (* constants of canvas.js *)
  canvasImage : Image;
  isMobile : bool;
  (* module-level variables of canvas.js *)
  canvasWidth : Z;
  canvasHeight : Z;
  pointerPosition : option Point;
  eventToEnable : Gesture;
  keepMask : bool;
  selectionDisabled : bool;
  snapArea : bool;
  cutModeEnabled : bool;
  handlingMove : bool;
  (* the DOM: crop button, editor style, canvas cursor, listeners on window *)
  cropBtnVisible : bool;
  userSelect : string;
  cursor : string;
  moveListener : bool;
  upListener : bool;
  cursorListener : bool;
  (* the event loop: queued frame callbacks, the image being decoded *)
  rafQueue : list FrameCallback;
  pendingSrc : option string;
  (* effects so far, oldest first *)
  log : list Effect
}.

(** Field updates. *)

Definition set_area (v : Area) (s : State) : State :=
  mkState v (direction s) (transform s) (rotation s) (flip s) (panelVisible s) (canvasImage s) (isMobile s) (canvasWidth s) (canvasHeight s) (pointerPosition s) (eventToEnable s) (keepMask s) (selectionDisabled s) (snapArea s) (cutModeEnabled s) (handlingMove s) (cropBtnVisible s) (userSelect s) (cursor s) (moveListener s) (upListener s) (cursorListener s) (rafQueue s) (pendingSrc s) (log s).

Definition set_direction (v : string) (s : State) : State :=
  mkState (area s) v (transform s) (rotation s) (flip s) (panelVisible s) (canvasImage s) (isMobile s) (canvasWidth s) (canvasHeight s) (pointerPosition s) (eventToEnable s) (keepMask s) (selectionDisabled s) (snapArea s) (cutModeEnabled s) (handlingMove s) (cropBtnVisible s) (userSelect s) (cursor s) (moveListener s) (upListener s) (cursorListener s) (rafQueue s) (pendingSrc s) (log s).

Definition set_transform (v : Transform) (s : State) : State :=
  mkState (area s) (direction s) v (rotation s) (flip s) (panelVisible s) (canvasImage s) (isMobile s) (canvasWidth s) (canvasHeight s) (pointerPosition s) (eventToEnable s) (keepMask s) (selectionDisabled s) (snapArea s) (cutModeEnabled s) (handlingMove s) (cropBtnVisible s) (userSelect s) (cursor s) (moveListener s) (upListener s) (cursorListener s) (rafQueue s) (pendingSrc s) (log s).

Definition set_rotation (v : Q) (s : State) : State :=
  mkState (area s) (direction s) (transform s) v (flip s) (panelVisible s) (canvasImage s) (isMobile s) (canvasWidth s) (canvasHeight s) (pointerPosition s) (eventToEnable s) (keepMask s) (selectionDisabled s) (snapArea s) (cutModeEnabled s) (handlingMove s) (cropBtnVisible s) (userSelect s) (cursor s) (moveListener s) (upListener s) (cursorListener s) (rafQueue s) (pendingSrc s) (log s).

Definition set_flip (v : Flip) (s : State) : State :=
  mkState (area s) (direction s) (transform s) (rotation s) v (panelVisible s) (canvasImage s) (isMobile s) (canvasWidth s) (canvasHeight s) (pointerPosition s) (eventToEnable s) (keepMask s) (selectionDisabled s) (snapArea s) (cutModeEnabled s) (handlingMove s) (cropBtnVisible s) (userSelect s) (cursor s) (moveListener s) (upListener s) (cursorListener s) (rafQueue s) (pendingSrc s) (log s).

Definition set_panelVisible (v : bool) (s : State) : State :=
  mkState (area s) (direction s) (transform s) (rotation s) (flip s) v (canvasImage s) (isMobile s) (canvasWidth s) (canvasHeight s) (pointerPosition s) (eventToEnable s) (keepMask s) (selectionDisabled s) (snapArea s) (cutModeEnabled s) (handlingMove s) (cropBtnVisible s) (userSelect s) (cursor s) (moveListener s) (upListener s) (cursorListener s) (rafQueue s) (pendingSrc s) (log s).

Definition set_canvasImage (v : Image) (s : State) : State :=
  mkState (area s) (direction s) (transform s) (rotation s) (flip s) (panelVisible s) v (isMobile s) (canvasWidth s) (canvasHeight s) (pointerPosition s) (eventToEnable s) (keepMask s) (selectionDisabled s) (snapArea s) (cutModeEnabled s) (handlingMove s) (cropBtnVisible s) (userSelect s) (cursor s) (moveListener s) (upListener s) (cursorListener s) (rafQueue s) (pendingSrc s) (log s).

Definition set_canvasWidth (v : Z) (s : State) : State :=
  mkState (area s) (direction s) (transform s) (rotation s) (flip s) (panelVisible s) (canvasImage s) (isMobile s) v (canvasHeight s) (pointerPosition s) (eventToEnable s) (keepMask s) (selectionDisabled s) (snapArea s) (cutModeEnabled s) (handlingMove s) (cropBtnVisible s) (userSelect s) (cursor s) (moveListener s) (upListener s) (cursorListener s) (rafQueue s) (pendingSrc s) (log s).

Definition set_canvasHeight (v : Z) (s : State) : State :=
  mkState (area s) (direction s) (transform s) (rotation s) (flip s) (panelVisible s) (canvasImage s) (isMobile s) (canvasWidth s) v (pointerPosition s) (eventToEnable s) (keepMask s) (selectionDisabled s) (snapArea s) (cutModeEnabled s) (handlingMove s) (cropBtnVisible s) (userSelect s) (cursor s) (moveListener s) (upListener s) (cursorListener s) (rafQueue s) (pendingSrc s) (log s).

Definition set_pointerPosition (v : option Point) (s : State) : State :=
  mkState (area s) (direction s) (transform s) (rotation s) (flip s) (panelVisible s) (canvasImage s) (isMobile s) (canvasWidth s) (canvasHeight s) v (eventToEnable s) (keepMask s) (selectionDisabled s) (snapArea s) (cutModeEnabled s) (handlingMove s) (cropBtnVisible s) (userSelect s) (cursor s) (moveListener s) (upListener s) (cursorListener s) (rafQueue s) (pendingSrc s) (log s).

Definition set_eventToEnable (v : Gesture) (s : State) : State :=
  mkState (area s) (direction s) (transform s) (rotation s) (flip s) (panelVisible s) (canvasImage s) (isMobile s) (canvasWidth s) (canvasHeight s) (pointerPosition s) v (keepMask s) (selectionDisabled s) (snapArea s) (cutModeEnabled s) (handlingMove s) (cropBtnVisible s) (userSelect s) (cursor s) (moveListener s) (upListener s) (cursorListener s) (rafQueue s) (pendingSrc s) (log s).

Definition set_keepMask (v : bool) (s : State) : State :=
  mkState (area s) (direction s) (transform s) (rotation s) (flip s) (panelVisible s) (canvasImage s) (isMobile s) (canvasWidth s) (canvasHeight s) (pointerPosition s) (eventToEnable s) v (selectionDisabled s) (snapArea s) (cutModeEnabled s) (handlingMove s) (cropBtnVisible s) (userSelect s) (cursor s) (moveListener s) (upListener s) (cursorListener s) (rafQueue s) (pendingSrc s) (log s).

Definition set_selectionDisabled (v : bool) (s : State) : State :=
  mkState (area s) (direction s) (transform s) (rotation s) (flip s) (panelVisible s) (canvasImage s) (isMobile s) (canvasWidth s) (canvasHeight s) (pointerPosition s) (eventToEnable s) (keepMask s) v (snapArea s) (cutModeEnabled s) (handlingMove s) (cropBtnVisible s) (userSelect s) (cursor s) (moveListener s) (upListener s) (cursorListener s) (rafQueue s) (pendingSrc s) (log s).

Definition set_snapArea (v : bool) (s : State) : State :=
  mkState (area s) (direction s) (transform s) (rotation s) (flip s) (panelVisible s) (canvasImage s) (isMobile s) (canvasWidth s) (canvasHeight s) (pointerPosition s) (eventToEnable s) (keepMask s) (selectionDisabled s) v (cutModeEnabled s) (handlingMove s) (cropBtnVisible s) (userSelect s) (cursor s) (moveListener s) (upListener s) (cursorListener s) (rafQueue s) (pendingSrc s) (log s).

Definition set_cutModeEnabled (v : bool) (s : State) : State :=
  mkState (area s) (direction s) (transform s) (rotation s) (flip s) (panelVisible s) (canvasImage s) (isMobile s) (canvasWidth s) (canvasHeight s) (pointerPosition s) (eventToEnable s) (keepMask s) (selectionDisabled s) (snapArea s) v (handlingMove s) (cropBtnVisible s) (userSelect s) (cursor s) (moveListener s) (upListener s) (cursorListener s) (rafQueue s) (pendingSrc s) (log s).

Definition set_handlingMove (v : bool) (s : State) : State :=
  mkState (area s) (direction s) (transform s) (rotation s) (flip s) (panelVisible s) (canvasImage s) (isMobile s) (canvasWidth s) (canvasHeight s) (pointerPosition s) (eventToEnable s) (keepMask s) (selectionDisabled s) (snapArea s) (cutModeEnabled s) v (cropBtnVisible s) (userSelect s) (cursor s) (moveListener s) (upListener s) (cursorListener s) (rafQueue s) (pendingSrc s) (log s).

Definition set_cropBtnVisible (v : bool) (s : State) : State :=
  mkState (area s) (direction s) (transform s) (rotation s) (flip s) (panelVisible s) (canvasImage s) (isMobile s) (canvasWidth s) (canvasHeight s) (pointerPosition s) (eventToEnable s) (keepMask s) (selectionDisabled s) (snapArea s) (cutModeEnabled s) (handlingMove s) v (userSelect s) (cursor s) (moveListener s) (upListener s) (cursorListener s) (rafQueue s) (pendingSrc s) (log s).

Definition set_userSelect (v : string) (s : State) : State :=
  mkState (area s) (direction s) (transform s) (rotation s) (flip s) (panelVisible s) (canvasImage s) (isMobile s) (canvasWidth s) (canvasHeight s) (pointerPosition s) (eventToEnable s) (keepMask s) (selectionDisabled s) (snapArea s) (cutModeEnabled s) (handlingMove s) (cropBtnVisible s) v (cursor s) (moveListener s) (upListener s) (cursorListener s) (rafQueue s) (pendingSrc s) (log s).

Definition set_cursor (v : string) (s : State) : State :=
  mkState (area s) (direction s) (transform s) (rotation s) (flip s) (panelVisible s) (canvasImage s) (isMobile s) (canvasWidth s) (canvasHeight s) (pointerPosition s) (eventToEnable s) (keepMask s) (selectionDisabled s) (snapArea s) (cutModeEnabled s) (handlingMove s) (cropBtnVisible s) (userSelect s) v (moveListener s) (upListener s) (cursorListener s) (rafQueue s) (pendingSrc s) (log s).

Definition set_moveListener (v : bool) (s : State) : State :=
  mkState (area s) (direction s) (transform s) (rotation s) (flip s) (panelVisible s) (canvasImage s) (isMobile s) (canvasWidth s) (canvasHeight s) (pointerPosition s) (eventToEnable s) (keepMask s) (selectionDisabled s) (snapArea s) (cutModeEnabled s) (handlingMove s) (cropBtnVisible s) (userSelect s) (cursor s) v (upListener s) (cursorListener s) (rafQueue s) (pendingSrc s) (log s).

Definition set_upListener (v : bool) (s : State) : State :=
  mkState (area s) (direction s) (transform s) (rotation s) (flip s) (panelVisible s) (canvasImage s) (isMobile s) (canvasWidth s) (canvasHeight s) (pointerPosition s) (eventToEnable s) (keepMask s) (selectionDisabled s) (snapArea s) (cutModeEnabled s) (handlingMove s) (cropBtnVisible s) (userSelect s) (cursor s) (moveListener s) v (cursorListener s) (rafQueue s) (pendingSrc s) (log s).

Definition set_cursorListener (v : bool) (s : State) : State :=
  mkState (area s) (direction s) (transform s) (rotation s) (flip s) (panelVisible s) (canvasImage s) (isMobile s) (canvasWidth s) (canvasHeight s) (pointerPosition s) (eventToEnable s) (keepMask s) (selectionDisabled s) (snapArea s) (cutModeEnabled s) (handlingMove s) (cropBtnVisible s) (userSelect s) (cursor s) (moveListener s) (upListener s) v (rafQueue s) (pendingSrc s) (log s).

Definition set_rafQueue (v : list FrameCallback) (s : State) : State :=
  mkState (area s) (direction s) (transform s) (rotation s) (flip s) (panelVisible s) (canvasImage s) (isMobile s) (canvasWidth s) (canvasHeight s) (pointerPosition s) (eventToEnable s) (keepMask s) (selectionDisabled s) (snapArea s) (cutModeEnabled s) (handlingMove s) (cropBtnVisible s) (userSelect s) (cursor s) (moveListener s) (upListener s) (cursorListener s) v (pendingSrc s) (log s).

Definition set_pendingSrc (v : option string) (s : State) : State :=
  mkState (area s) (direction s) (transform s) (rotation s) (flip s) (panelVisible s) (canvasImage s) (isMobile s) (canvasWidth s) (canvasHeight s) (pointerPosition s) (eventToEnable s) (keepMask s) (selectionDisabled s) (snapArea s) (cutModeEnabled s) (handlingMove s) (cropBtnVisible s) (userSelect s) (cursor s) (moveListener s) (upListener s) (cursorListener s) (rafQueue s) v (log s).

Definition set_log (v : list Effect) (s : State) : State :=
  mkState (area s) (direction s) (transform s) (rotation s) (flip s) (panelVisible s) (canvasImage s) (isMobile s) (canvasWidth s) (canvasHeight s) (pointerPosition s) (eventToEnable s) (keepMask s) (selectionDisabled s) (snapArea s) (cutModeEnabled s) (handlingMove s) (cropBtnVisible s) (userSelect s) (cursor s) (moveListener s) (upListener s) (cursorListener s) (rafQueue s) (pendingSrc s) v.

(** The result of running a handler: it returns, or it throws and leaves
    the state as it was at the throw. *)
Inductive Outcome :=
| Done (s : State)
| Threw (e : Exn) (s : State).

Definition and_then (o : Outcome) (k : State -> Outcome) : Outcome :=
  match o with
  | Done s => k s
  | Threw e s => Threw e s
  end.

Notation "o >>= k" := (and_then o k) (at level 50, left associativity).

Definition final_state (o : Outcome) : State :=
  match o with Done s | Threw _ s => s end.

Definition emit (e : Effect) (s : State) : State :=
  set_log (log s ++ [e]) s.

(** [requestAnimationFrame(cb)]. *)
Definition requestAnimationFrame (cb : FrameCallback) (s : State) : State :=
  set_rafQueue (rafQueue s ++ [cb]) s.

(** ** The imported modules

    area.js, transform.js, rotation.js, flip.js and zoom.js are not part of
    the sources at hand.  The two geometric tests of area.js are left as
    an interface; the rest is modelled from the specification. *)

(** The hit tests of area.js on the current rectangle: which resize handle
    (if any) a pointer position is on, and whether it lies inside. *)
Class AreaModule := {
  detect_direction : Area -> Q -> Q -> string;
  inside_area : Area -> Q -> Q -> bool
}.

(** Rasterisation the 2D context performs when a draw is not a plain pixel
    copy: [rasterize image radians flipH flipV tx ty i j] is the colour a
    rotated, scaled or sub-pixel-translated image contributes at device
    pixel (i, j), and [source_over src dst] is the compositing of a colour
    over a non-transparent one. *)
Class Canvas2D := {
  rasterize : Image -> Q -> Z -> Z -> Q -> Q -> Z -> Z -> option Pixel;
  source_over : Pixel -> Pixel -> Pixel
}.

(** Modelled from the spec: the accessors of the imported modules
    ([getArea] and [getDirection] of area.js, [getTransform] of
    transform.js, [getRotation] of rotation.js, [getFlip] of flip.js,
    [isPanelVisible] of top-bar) return the current value of the
    singleton.  [getArea] hands out the one Area object, so an assignment
    to a property of its result is an update of the [area] field. *)
Definition getArea (s : State) : Area := area s.
Definition getDirection (s : State) : string := direction s.
Definition getTransform (s : State) : Transform := transform s.
Definition getRotation (s : State) : Q := rotation s.
Definition getFlip (s : State) : Flip := flip s.
Definition isPanelVisible (s : State) : bool := panelVisible s.

(** Modelled from the spec: [resetArea] of area.js.  The Area starts from
    scratch at the given point (the origin when none is given) with zero
    width and height. *)
Definition resetArea (pt : option Point) (s : State) : State :=
  match pt with
  | Some p => set_area (mkArea (pt_x p) (pt_y p) 0 0) s
  | None => set_area (mkArea 0 0 0 0) s
  end.

(** Modelled from the spec: [setDirection] of area.js.  It detects the
    resize handle under the pointer, keeps it as the last detected
    direction and returns it. *)
Definition setDirection `{AreaModule} (x y : Q) (s : State) : string * State :=
  let d := detect_direction (area s) x y in
  (d, set_direction d s).

(** Modelled from the spec: [isInsideArea] of area.js. *)
Definition isInsideArea `{AreaModule} (x y : Q) (s : State) : bool :=
  inside_area (area s) x y.

(** Modelled from the spec: [resetRotation] of rotation.js; the angle goes
    back to its default 0. *)
Definition resetRotation (s : State) : State := set_rotation 0 s.

(** Modelled from the spec: [getTransformedPoint] of transform.js, the
    screen-to-image conversion [ix = (x - e) / a], [iy = (y - f) / d]. *)
Definition getTransformedPoint (x y : Q) (s : State) : Point :=
  let t := transform s in
  mkPoint ((x - t_e t) / t_a t) ((y - t_f t) / t_d t).

(** Modelled from the spec: [translateContext] of transform.js adds to the
    translation directly. *)
Definition translateContext (dx dy : Q) (s : State) : State :=
  let t := transform s in
  set_transform
    (mkTransform (t_a t) (t_b t) (t_c t) (t_d t) (t_e t + dx) (t_f t + dy)) s.

(** Modelled from the spec: the scale [scaleImageToFitCanvas] of zoom.js
    computes, the smaller of the two viewport-to-image ratios. *)
Definition fit_scale (cw ch : Z) (image : Image) : Q :=
  Qmin (inject_Z cw / inject_Z (img_width image))
       (inject_Z ch / inject_Z (img_height image)).

(** Modelled from the spec: the matrix [scaleImageToFitCanvas] sets,
    uniform scale and centring translation. *)
Definition fit_transform (cw ch : Z) (image : Image) : Transform :=
  let k := fit_scale cw ch image in
  mkTransform k 0 0 k
    ((inject_Z cw - inject_Z (img_width image) * k) / 2)
    ((inject_Z ch - inject_Z (img_height image) * k) / 2).

(** Modelled from the spec: [scaleImageToFitCanvas] replaces the
    Transform by the fitted one. *)
Definition scaleImageToFitCanvas (image : Image) (s : State) : State :=
  set_transform (fit_transform (canvasWidth s) (canvasHeight s) image) s.

(** ** canvas.js: rendering of the visible canvas *)

Definition drawCanvas (s : State) : State := emit DrawCanvas s.

Definition setCanvasCursor (name : string) (s : State) : State :=
  set_cursor name s.

(** One animation frame: the queued callbacks run in order. *)
Definition run_callback (cb : FrameCallback) (s : State) : State :=
  match cb with
  | FrameDraw => drawCanvas s
  | FrameMoveDone => set_handlingMove false (drawCanvas s)
  end.

Definition animationFrame (s : State) : State :=
  fold_left (fun acc cb => run_callback cb acc) (rafQueue s)
            (set_rafQueue [] s).

(** ** canvas.js: the Area mutators *)

Definition selectArea (x y : Q) (s : State) : State :=
  let s := emit (Mutator GSelect x y) s in
  let a := getArea s in
  set_area (mkArea (area_x a) (area_y a) (x - area_x a) (y - area_y a)) s.

Definition resizeArea (x y : Q) (s : State) : State :=
  let s := emit (Mutator GResize x y) s in
  let a := getArea s in
  let direction := getDirection s in
  let a :=
    if JS.first_is "n" direction then
      mkArea (area_x a) y (area_width a) (area_y a - y + area_height a)
    else if JS.first_is "s" direction then
      mkArea (area_x a) (area_y a) (area_width a) (y - area_y a)
    else a in
  let a :=
    if JS.includes "w" direction then
      mkArea x (area_y a) (area_x a - x + area_width a) (area_height a)
    else if JS.includes "e" direction then
      mkArea (area_x a) (area_y a) (x - area_x a) (area_height a)
    else a in
  set_area a s.

(** The property names [updatePoint] is called with. *)
Inductive PointName := NameX | NameY.
Inductive DimensionName := NameWidth | NameHeight.

Definition area_point (n : PointName) (a : Area) : Q :=
  match n with NameX => area_x a | NameY => area_y a end.

Definition area_dimension (n : DimensionName) (a : Area) : Q :=
  match n with NameWidth => area_width a | NameHeight => area_height a end.

Definition set_area_point (n : PointName) (v : Q) (a : Area) : Area :=
  match n with
  | NameX => mkArea v (area_y a) (area_width a) (area_height a)
  | NameY => mkArea (area_x a) v (area_width a) (area_height a)
  end.

Definition point_coord (n : PointName) (p : Point) : Q :=
  match n with NameX => pt_x p | NameY => pt_y p end.

Definition image_dimension (n : DimensionName) (image : Image) : Q :=
  match n with
  | NameWidth => inject_Z (img_width image)
  | NameHeight => inject_Z (img_height image)
  end.

(** The position [updatePoint] assigns, given the unsnapped position
    [diff], the extent of the rectangle and of the scaled image on that
    axis, and the image's offset. *)
Definition snapped_position (diff areaDimension scaledDimension offset : Q) : Q :=
  if JS.gt areaDimension 0 then
    if JS.gt (offset + 8) diff && JS.lt (offset - 8) diff then
      offset
    else if JS.gt (offset + 8 + scaledDimension) (diff + areaDimension)
            && JS.lt (offset - 8 + scaledDimension) (diff + areaDimension) then
      offset + scaledDimension - areaDimension
    else
      diff
  else
    let diff2 := diff + areaDimension in
    if JS.gt (offset + 8) diff2 && JS.lt (offset - 8) diff2 then
      offset - areaDimension
    else if JS.gt (offset + 8 + scaledDimension) diff
            && JS.lt (offset - 8 + scaledDimension) diff then
      offset + scaledDimension
    else
      diff.

Definition updatePoint (point : Q) (pointName : PointName)
    (dimensionName : DimensionName) (offset scale : Q) (s : State) : Outcome :=
  let a := getArea s in
  match pointerPosition s with
  | None => Threw TypeError s
  | Some pp =>
      let diff := point - point_coord pointName pp in
      let dimension := image_dimension dimensionName (canvasImage s) in
      let scaledDimension := dimension * scale in
      let areaDimension := area_dimension dimensionName a in
      Done (set_area
              (set_area_point pointName
                 (snapped_position diff areaDimension scaledDimension offset) a)
              s)
  end.

Definition moveArea (x y : Q) (s : State) : Outcome :=
  let s := emit (Mutator GMove x y) s in
  if snapArea s then
    let t := getTransform s in
    updatePoint x NameX NameWidth (t_e t) (t_a t) s
      >>= updatePoint y NameY NameHeight (t_f t) (t_a t)
  else
    let a := getArea s in
    match pointerPosition s with
    | None => Threw TypeError s
    | Some pp =>
        Done (set_area
                (mkArea (x - pt_x pp) (y - pt_y pp) (area_width a) (area_height a))
                s)
    end.

Definition dragImage (x y : Q) (s : State) : State :=
  let s := emit (Mutator GDrag x y) s in
  match pointerPosition s with
  | Some pp =>
      let pt := getTransformedPoint x y s in
      translateContext (pt_x pt - pt_x pp) (pt_y pt - pt_y pp) s
  | None => s
  end.

(** ** canvas.js: the pointer handlers *)

(** What the handlers read of a pointer event. *)
Record PointerEvent := mkPointerEvent {
  which : Z;
  clientX : Q;
  clientY : Q;
  shiftKey : bool;
  ctrlKey : bool
}.

Definition areaDrawn (a : Area) : bool :=
  JS.truthy (area_width a) && JS.truthy (area_height a).

Definition nonempty (d : string) : bool :=
  match d with EmptyString => false | _ => true end.

Definition allowCropAreaModification (s : State) : State :=
  set_cursorListener true (set_cropBtnVisible true s).

Definition handlePointerdown `{AreaModule} (event : PointerEvent) (s : State) : State :=
  if negb (which event =? 1)%Z || isPanelVisible s then s
  else if cutModeEnabled s then
    let s := set_eventToEnable GResize s in
    let s := set_moveListener true s in
    let s := set_upListener true s in
    set_cursorListener false s
  else
    let x := clientX event in
    let y := clientY event in
    let a := getArea s in
    let drawn := areaDrawn a in
    let '(direction, s) := setDirection x y s in
    let s := set_eventToEnable GSelect s in
    let s := set_keepMask drawn s in
    let s :=
      if shiftKey event || selectionDisabled s then
        let s := set_pointerPosition (Some (getTransformedPoint x y s)) s in
        set_eventToEnable GDrag s
      else if (ctrlKey event || isMobile s) && drawn && isInsideArea x y s then
        let s := set_pointerPosition (Some (mkPoint (x - area_x a) (y - area_y a))) s in
        set_eventToEnable GMove s
      else if nonempty direction && drawn then
        set_eventToEnable GResize s
      else
        resetArea (Some (mkPoint x y)) s in
    let s := requestAnimationFrame FrameDraw s in
    let s := set_cropBtnVisible false s in
    let s := set_userSelect "none" s in
    let s := set_moveListener true s in
    let s := set_upListener true s in
    set_cursorListener false s.

(** [c > 0 ? c : 0]. *)
Definition clamp (c : Q) : Q := if JS.gt c 0 then c else 0.

(** The [switch] of [handlePointermove]. *)
Definition dispatch (g : Gesture) (x y : Q) (s : State) : Outcome :=
  match g with
  | GSelect => Done (selectArea x y s)
  | GResize => Done (resizeArea x y s)
  | GMove => moveArea x y s
  | GDrag => Done (dragImage x y s)
  | GNone => Done s
  end.

Definition handlePointermove (event : PointerEvent) (s : State) : Outcome :=
  if handlingMove s then Done s
  else
    let s := set_handlingMove true s in
    let x := clamp (clientX event) in
    let y := clamp (clientY event) in
    dispatch (eventToEnable s) x y s
      >>= fun s => Done (requestAnimationFrame FrameMoveDone s).

Definition handlePointerup (s : State) : State :=
  let a := getArea s in
  let s := set_eventToEnable GNone s in
  let s := set_userSelect "auto" s in
  let s :=
    if areaDrawn a then allowCropAreaModification s
    else
      let s := set_keepMask false s in
      let s := emit DrawImage s in
      let s := setCanvasCursor "default" s in
      emit ResetCropPanelInputs s in
  let s := set_moveListener false s in
  set_upListener false s.

Definition handleDoubleClick (s : State) : State :=
  let a := getArea s in
  if negb (areaDrawn a) then s
  else
    let t := getTransform s in
    let scale := t_a t in
    let e := t_e t in
    let f := t_f t in
    let width := inject_Z (img_width (canvasImage s)) in
    let height := inject_Z (img_height (canvasImage s)) in
    let direction := getDirection s in
    let a :=
      if JS.gt (area_height a) 0 then
        if JS.includes "n" direction then
          mkArea (area_x a) f (area_width a) (area_height a + area_y a - f)
        else if JS.includes "s" direction then
          mkArea (area_x a) (area_y a) (area_width a)
            (f + area_height a + height * scale - (area_y a + area_height a))
        else a
      else
        let scaledHeight := height * scale in
        if JS.includes "n" direction then
          mkArea (area_x a) (scaledHeight + f) (area_width a)
            (area_height a - (scaledHeight - area_y a) - f)
        else if JS.includes "s" direction then
          mkArea (area_x a) (area_y a) (area_width a)
            (area_height a + f - (area_y a + area_height a))
        else a in
    let a :=
      if JS.gt (area_width a) 0 then
        if JS.includes "w" direction then
          mkArea e (area_y a) (area_width a + area_x a - e) (area_height a)
        else if JS.includes "e" direction then
          mkArea (area_x a) (area_y a)
            (e + area_width a + width * scale - (area_x a + area_width a))
            (area_height a)
        else a
      else
        if JS.includes "w" direction then
          let scaledWidth := width * scale in
          mkArea (scaledWidth + e) (area_y a)
            (area_width a - (scaledWidth - area_x a) - e) (area_height a)
        else if JS.includes "e" direction then
          mkArea (area_x a) (area_y a)
            (area_width a + e - (area_x a + area_width a)) (area_height a)
        else a in
    requestAnimationFrame FrameDraw (set_area a s).

Definition changeCursor `{AreaModule} (event : PointerEvent) (s : State) : State :=
  let x := clientX event in
  let y := clientY event in
  if ctrlKey event then
    setCanvasCursor (if isInsideArea x y s then "move" else "default") s
  else
    let '(direction, s) := setDirection x y s in
    setCanvasCursor
      (if nonempty direction then direction ++ "-resize" else "default") s.

(** ** canvas.js: loading an image *)

Definition disableCutMode (s : State) : State := set_cutModeEnabled false s.

(** [loadImageFile]: the synchronous part.  Assigning [canvasImage.src]
    starts the decoding; the [onload] handler runs when it completes. *)
Definition loadImageFile (blobUrl : string) (s : State) : State :=
  let s := set_keepMask false s in
  let s := set_cropBtnVisible false s in
  let s := resetRotation s in
  let s := resetArea None s in
  let s := set_pendingSrc (Some blobUrl) s in
  disableCutMode s.

(** The [load] event of [canvasImage]: the element now holds the decoded
    image and the handler installed by [loadImageFile] runs. *)
Definition canvasImage_onload (decoded : Image) (s : State) : State :=
  match pendingSrc s with
  | None => s
  | Some _ =>
      let s := set_pendingSrc None (set_canvasImage decoded s) in
      scaleImageToFitCanvas (canvasImage s) s
  end.

(** The click handler of the cut-mode button. *)
Definition cutModeClick (s : State) : State :=
  let s := set_cutModeEnabled (negb (cutModeEnabled s)) s in
  let s :=
    if cutModeEnabled s then
      let t := getTransform s in
      let image := canvasImage s in
      let s :=
        set_area (mkArea (t_e t) (t_f t)
                    (inject_Z (img_width image) * t_a t)
                    (inject_Z (img_height image) * t_a t)) s in
      allowCropAreaModification s
    else resetArea None s in
  requestAnimationFrame FrameDraw s.

(** The change handler of the snap checkbox. *)
Definition snapChange (checked : bool) (s : State) : State :=
  set_snapArea checked s.

(** ** The 2D canvas of the platform *)

(** A bitmap: its size and the colour of each of its pixels. *)
Record Surface := mkSurface {
  s_width : Z;
  s_height : Z;
  s_px : Z -> Z -> Pixel
}.

(** A rectangle in whole pixels. *)
Record IntRect := mkIntRect {
  r_x : Z; r_y : Z; r_width : Z; r_height : Z
}.

Module Ctx.

Local Open Scope Z_scope.

Definition in_bounds (w h i j : Z) : bool :=
  (0 <=? i) && (i <? w) && (0 <=? j) && (j <? h).

Definition blank (w h : Z) : Surface :=
  mkSurface w h (fun _ _ => transparent).

(** The colour at a position; transparent black outside the bitmap. *)
Definition pixel_at (c : Surface) (i j : Z) : Pixel :=
  if in_bounds (s_width c) (s_height c) i j then s_px c i j else transparent.

(** A canvas with its context: the bitmap and the current translation
    (the only part of the current transform the extractor sets outside
    a save/restore pair). *)
Record t := mk {
  canvas : Surface;
  tx : Q;
  ty : Q
}.

(** [document.createElement("canvas").getContext("2d")]. *)
Definition create : t := mk (blank 300 150) 0%Q 0%Q.

(** The [width] and [height] attributes are unsigned: a negative value
    falls back to the default. *)
Definition dimension (default v : Z) : Z := if v <? 0 then default else v.

(** Assigning [canvas.width] or [canvas.height] clears the bitmap and
    resets the context. *)
Definition set_width (v : Z) (c : t) : t :=
  mk (blank (dimension 300 v) (s_height (canvas c))) 0%Q 0%Q.

Definition set_height (v : Z) (c : t) : t :=
  mk (blank (s_width (canvas c)) (dimension 150 v)) 0%Q 0%Q.

Definition translate (dx dy : Q) (c : t) : t :=
  mk (canvas c) (tx c + dx)%Q (ty c + dy)%Q.

(** [clearRect(0, 0, w, h)] under the identity transform. *)
Definition clear_rect (w h : Z) (c : t) : t :=
  mk (mkSurface (s_width (canvas c)) (s_height (canvas c))
        (fun i j => if in_bounds w h i j then transparent
                    else s_px (canvas c) i j))
     (tx c) (ty c).

Definition is_integer (q : Q) : bool := Qeq_bool q (inject_Z (Qfloor q)).

Definition unit_flip (fl : Flip) : bool :=
  ((flipH fl =? 1) || (flipH fl =? -1)) && ((flipV fl =? 1) || (flipV fl =? -1)).

(** The colour that drawing [image] contributes at device pixel (i, j):
    the image is rotated by [radians] about its centre, mirrored within
    its footprint according to [fl], and placed by the current
    translation.  Without rotation and on whole-pixel translations this
    is a pixel copy; otherwise the platform rasterises. *)
Definition image_contribution `{Canvas2D} (image : Image) (radians : Q)
    (fl : Flip) (tx ty : Q) (i j : Z) : option Pixel :=
  if JS.truthy radians || negb (is_integer tx && is_integer ty)
     || negb (unit_flip fl) then
    rasterize image radians (flipH fl) (flipV fl) tx ty i j
  else
    let u := i - Qfloor tx in
    let v := j - Qfloor ty in
    let k := if flipH fl =? -1 then img_width image - 1 - u else u in
    let l := if flipV fl =? -1 then img_height image - 1 - v else v in
    if in_bounds (img_width image) (img_height image) k l
    then Some (img_px image k l) else None.

Definition compose `{Canvas2D} (src : option Pixel) (dst : Pixel) : Pixel :=
  match src with
  | None => dst
  | Some p => if dst =? transparent then p else source_over p dst
  end.

Definition paint `{Canvas2D} (f : Z -> Z -> option Pixel) (c : t) : t :=
  mk (mkSurface (s_width (canvas c)) (s_height (canvas c))
        (fun i j => compose (f i j) (s_px (canvas c) i j)))
     (tx c) (ty c).

(** [ctx.getImageData(sx, sy, sw, sh)]: a zero extent throws; a negative
    one selects the rectangle on the other side of the corner. *)
Definition getImageData (sx sy sw sh : Z) (c : t) : Exn + Surface :=
  if (sw =? 0) || (sh =? 0) then inl IndexSizeError
  else
    let x0 := if sw <? 0 then sx + sw else sx in
    let y0 := if sh <? 0 then sy + sh else sy in
    inr (mkSurface (Z.abs sw) (Z.abs sh)
           (fun i j => pixel_at (canvas c) (x0 + i) (y0 + j))).

(** [ctx.putImageData(data, dx, dy)]. *)
Definition putImageData (data : Surface) (dx dy : Z) (c : t) : t :=
  mk (mkSurface (s_width (canvas c)) (s_height (canvas c))
        (fun i j =>
           if in_bounds (s_width data) (s_height data) (i - dx) (j - dy)
           then s_px data (i - dx) (j - dy)
           else s_px (canvas c) i j))
     (tx c) (ty c).

End Ctx.

(** ** canvas.js: the crop extractor *)

Definition clearCanvas (ctx : Ctx.t) (s : State) : Ctx.t :=
  Ctx.clear_rect (canvasWidth s) (canvasHeight s) ctx.

Definition drawImage `{Canvas2D} (ctx : Ctx.t) (image : Image) (s : State) : Ctx.t :=
  let radians := getRotation s in
  let fl := getFlip s in
  let ctx := clearCanvas ctx s in
  Ctx.paint
    (Ctx.image_contribution image radians fl (Ctx.tx ctx) (Ctx.ty ctx)) ctx.

Definition getImageData `{Canvas2D} (image : Image) (a : IntRect) (ctx : Ctx.t)
    (s : State) : Exn + Surface :=
  let ctx := drawImage ctx image s in
  Ctx.getImageData (r_x a) (r_y a) (r_width a) (r_height a) ctx.

(** The Area in image space, as [getCroppedCanvas] computes it. *)
Definition transformedArea (s : State) : IntRect :=
  let scale := t_a (getTransform s) in
  let a := getArea s in
  mkIntRect (JS.round (area_x a / scale)) (JS.round (area_y a / scale))
            (JS.round (area_width a / scale)) (JS.round (area_height a / scale)).

Definition getCroppedCanvas `{Canvas2D} (image : Image) (s : State) : Exn + Surface :=
  let ctx := Ctx.create in
  let t := getTransform s in
  let scale := t_a t in
  let x := t_e t in
  let y := t_f t in
  let translated := mkPoint (x / scale) (y / scale) in
  let ctx := Ctx.set_width (JS.round (inject_Z (canvasWidth s) / scale)) ctx in
  let ctx := Ctx.set_height (JS.round (inject_Z (canvasHeight s) / scale)) ctx in
  let ctx := Ctx.translate (pt_x translated) (pt_y translated) ctx in
  match getImageData image (transformedArea s) ctx s with
  | inl e => inl e
  | inr imageData =>
      let ctx := Ctx.set_width (s_width imageData) ctx in
      let ctx := Ctx.set_height (s_height imageData) ctx in
      let ctx := Ctx.putImageData imageData 0 0 ctx in
      inr (Ctx.canvas ctx)
  end.

(** The outcome of a promise. *)
Inductive Settled (A : Type) :=
| Resolved (v : A)
| Rejected (e : Exn).
Arguments Resolved {A} v.
Arguments Rejected {A} e.

(** The encoded raster: the bitmap together with its content type. *)
Record Blob := mkBlob { blob_raster : Surface; blob_type : string }.

Record Slice := mkSlice {
  slice_file : Blob;
  slice_width : Z;
  slice_height : Z
}.

(** [getCanvasSlice]: an exception in the executor rejects the promise. *)
Definition getCanvasSlice `{Canvas2D} (image : Image) (type : string) (s : State)
    : Settled Slice :=
  match getCroppedCanvas image s with
  | inl e => Rejected e
  | inr croppedCanvas =>
      Resolved (mkSlice (mkBlob croppedCanvas type)
                        (s_width croppedCanvas) (s_height croppedCanvas))
  end.

(** ** Vocabulary of the statements *)



(** The two edges of a rectangle on one axis, whatever the sign of its
    extent [d]: the edge with the smaller coordinate and the one with the
    larger. *)
Definition low_edge (p d : Q) : Q := Qmin p (p + d).
Definition high_edge (p d : Q) : Q := Qmax p (p + d).


(** A sample session: a 400 x 300 image shown at scale 1 in the top-left
    corner of an 800 x 600 viewport, nothing selected, no gesture. *)
Definition sample_image : Image :=
  mkImage 400 300 (fun i j => (i + 1000 * j + 1)%Z).

Definition sample_state : State :=
  mkState (mkArea 0 0 0 0) "" (mkTransform 1 0 0 1 0 0) 0 (mkFlip 1 1) false
          sample_image false
          800 600 None GNone false false false false false
          false "auto" "default" false false false
          [] None [].


(** The sample session in the middle of a move with snap enabled: a
    20 x 20 rectangle grabbed at its corner. *)
Definition snap_state : State :=
  snapChange true
    (set_pointerPosition (Some (mkPoint 0 0))
       (set_eventToEnable GMove
          (set_area (mkArea 50 50 20 20) sample_state))).

(** A burst of pointer-move events with no animation frame in between. *)
Fixpoint pointermoves (events : list PointerEvent) (s : State) : Outcome :=
  match events with
  | [] => Done s
  | event :: rest => handlePointermove event s >>= pointermoves rest
  end.

(** A stand-in for the hit tests of area.js, used by the examples: a
    handle is hit within 8 pixels of an edge, the inside test is
    inclusive. *)
Definition near (c v : Q) : bool := JS.gt (c + 8) v && JS.lt (c - 8) v.

Definition sample_area_module : AreaModule := {|
  detect_direction a x y :=
    ((if near (area_y a) y then "n"
      else if near (area_y a + area_height a) y then "s" else "")
     ++ (if near (area_x a) x then "w"
         else if near (area_x a + area_width a) x then "e" else ""))%string;
  inside_area a x y :=
    Qle_bool (low_edge (area_x a) (area_width a)) x
    && Qle_bool x (high_edge (area_x a) (area_width a))
    && Qle_bool (low_edge (area_y a) (area_height a)) y
    && Qle_bool y (high_edge (area_y a) (area_height a))
|}.

(** A stand-in for the platform's rasteriser, used by the examples, which
    only draw without rotation and on whole pixels: other draws paint
    nothing and compositing replaces the destination. *)
Definition sample_canvas : Canvas2D := {|
  rasterize _ _ _ _ _ _ _ _ := None;
  source_over src _ := src
|}.

(** A primary-button pointer event at (x, y) without modifiers. *)
Definition pointer_at (x y : Q) : PointerEvent := mkPointerEvent 1 x y false false.

(** The record a dispatch to the mutator of gesture [g] leaves. *)
Definition mutator_call (g : Gesture) (x y : Q) : list Effect :=
  match g with GNone => [] | _ => [Mutator g x y] end.

(** The sample image in a 200 x 150 viewport, zoomed to scale 1, with the
    whole image selected by switching cut mode on. *)
Definition narrow_state : State :=
  cutModeClick (set_canvasHeight 150 (set_canvasWidth 200 sample_state)).

(** The variables of the gesture at their initial values, as they still
    are once the canvas has been initialised: no gesture, no grab point,
    no gesture listener on the window, nothing queued. *)
Definition fresh (s : State) : Prop :=
  eventToEnable s = GNone
  /\ pointerPosition s = None
  /\ moveListener s = false /\ upListener s = false
  /\ handlingMove s = false /\ rafQueue s = [].

(** What the handlers keep true of a session. *)
Definition gesture_inv (s : State) : Prop :=
  (eventToEnable s = GMove -> pointerPosition s <> None)
  /\ (moveListener s = true <-> eventToEnable s <> GNone)
  /\ upListener s = moveListener s
  /\ (handlingMove s = true <-> In FrameMoveDone (rafQueue s)).



(** The size of the offscreen canvas of the extractor: the viewport
    divided by the scale. *)
Definition offscreen_width (s : State) : Z :=
  Ctx.dimension 300 (JS.round (inject_Z (canvasWidth s) / t_a (transform s))).
Definition offscreen_height (s : State) : Z :=
  Ctx.dimension 150 (JS.round (inject_Z (canvasHeight s) / t_a (transform s))).

(** The colour at position (X, Y) of a transparent surface on which
    [image], mirrored within its footprint according to [fl], is placed
    with its top-left corner at (ox, oy). *)
Definition placed_pixel (image : Image) (fl : Flip) (ox oy X Y : Z) : Pixel :=
  let u := (X - ox)%Z in
  let v := (Y - oy)%Z in
  let k := if (flipH fl =? -1)%Z then (img_width image - 1 - u)%Z else u in
  let l := if (flipV fl =? -1)%Z then (img_height image - 1 - v)%Z else v in
  if Ctx.in_bounds (img_width image) (img_height image) k l
  then img_px image k l else transparent.

(** The corner with the smaller coordinates of a rectangle in whole
    pixels, whatever the signs of its extents. *)
Definition low_corner_x (r : IntRect) : Z :=
  if (r_width r <? 0)%Z then (r_x r + r_width r)%Z else r_x r.
Definition low_corner_y (r : IntRect) : Z :=
  if (r_height r <? 0)%Z then (r_y r + r_height r)%Z else r_y r.

(** The Area as [drawArea] rounds it. *)
Definition roundedArea (s : State) : IntRect :=
  let a := area s in
  mkIntRect (JS.round (area_x a)) (JS.round (area_y a))
            (JS.round (area_width a)) (JS.round (area_height a)).

(** Whether device pixel (i, j) lies in a rectangle of whole pixels. *)
Definition covers (r : IntRect) (i j : Z) : bool :=
  Ctx.in_bounds (Z.abs (r_width r)) (Z.abs (r_height r))
    (i - low_corner_x r) (j - low_corner_y r).

(** ** canvas.js: the remaining handlers *)

(** The click handler of the selection toggle (shown on mobile). *)
Definition selectionToggleClick (s : State) : State :=
  set_selectionDisabled (negb (selectionDisabled s)) s.

(** The [keydown] handler of the window: ctrl+a selects the whole image
    as it is shown on the screen. *)
Definition handleKeydown (key : string) (ctrl : bool) (s : State) : State :=
  if String.eqb key "a" && ctrl then
    let t := getTransform s in
    let image := canvasImage s in
    let s :=
      set_area (mkArea (t_e t) (t_f t)
                  (inject_Z (img_width image) * t_a t)
                  (inject_Z (img_height image) * t_a t)) s in
    let s := requestAnimationFrame FrameDraw s in
    allowCropAreaModification s
  else s.

(** Modelled from the spec: [applyScaleMultiplier] of zoom.js.  The scale
    is multiplied by the factor and the translation is recomputed so that
    the pivot keeps its image-space coordinate. *)
Definition applyScaleMultiplier (factor pivotX pivotY : Q) (s : State) : State :=
  let t := transform s in
  set_transform
    (mkTransform (t_a t * factor) (t_b t) (t_c t) (t_d t * factor)
       (pivotX - (pivotX - t_e t) * factor)
       (pivotY - (pivotY - t_f t) * factor)) s.

(** The [wheel] handler of the canvas. *)
Definition handleScroll (deltaY : Q) (event : PointerEvent) (s : State) : State :=
  applyScaleMultiplier (if JS.gt deltaY 0 then 8 # 10 else 125 # 100)
    (clientX event) (clientY event) s.

(** ** The session as a machine

    The events of the gesture machine on an initialised canvas: the
    pointer, wheel, double-click and keyboard events its listeners
    receive, the cut-mode, snap and selection controls, an animation
    frame, and the two steps of an image load.  A [pointermove] or
    [pointerup] on the window reaches a handler only while that handler
    is registered.  The click handler of the crop button (its promise is
    rejected when [getCanvasSlice] throws) and the resize handler of the
    window are not among these events. *)
Inductive Input :=
| PointerDown (event : PointerEvent)
| PointerMove (event : PointerEvent)   (* window pointermove, handlePointermove *)
| CursorMove (event : PointerEvent)    (* window pointermove, changeCursor *)
| PointerUp
| DoubleClick
| Wheel (deltaY : Q) (event : PointerEvent)
| Frame
| CutModeClick
| SelectionToggleClick
| SnapChange (checked : bool)
| Keydown (key : string) (ctrl : bool)
| LoadImage (blobUrl : string)
| ImageLoaded (decoded : Image).

Definition react `{AreaModule} (i : Input) (s : State) : Outcome :=
  match i with
  | PointerDown event => Done (handlePointerdown event s)
  | PointerMove event =>
      if moveListener s then handlePointermove event s else Done s
  | CursorMove event =>
      if cursorListener s then Done (changeCursor event s) else Done s
  | PointerUp => if upListener s then Done (handlePointerup s) else Done s
  | DoubleClick => Done (handleDoubleClick s)
  | Wheel deltaY event => Done (handleScroll deltaY event s)
  | Frame => Done (animationFrame s)
  | CutModeClick => Done (cutModeClick s)
  | SelectionToggleClick => Done (selectionToggleClick s)
  | SnapChange checked => Done (snapChange checked s)
  | Keydown key ctrl => Done (handleKeydown key ctrl s)
  | LoadImage blobUrl => Done (loadImageFile blobUrl s)
  | ImageLoaded decoded => Done (canvasImage_onload decoded s)
  end.

Fixpoint run `{AreaModule} (inputs : list Input) (s : State) : Outcome :=
  match inputs with
  | [] => Done s
  | i :: rest => react i s >>= run rest
  end.

(** ** canvas.js: the overlay of the visible canvas *)

(** The colour a 1 pixel wide [strokeRect(x, y, w, h)] in the outline
    colour contributes at device pixel (i, j) under the identity
    transform. *)
Class Stroke2D := {
  stroke_rect : Q -> Q -> Z -> Z -> Z -> Z -> option Pixel
}.

(** The fill style of the mask, rgba(0, 0, 0, .4). *)
Definition mask_colour : Pixel := 102%Z.

(** [addMask]; it is called under the identity transform only, where the
    filled rectangle is the block of pixels from (0, 0). *)
Definition addMask `{Canvas2D} (ctx : Ctx.t) (s : State) : Ctx.t :=
  Ctx.paint
    (fun i j =>
       if Ctx.in_bounds (canvasWidth s) (canvasHeight s) i j
       then Some mask_colour else None)
    ctx.

(** [drawArea].  Between [save] and [restore] the transform is the
    identity; the translation of the context is as before afterwards. *)
Definition drawArea `{Canvas2D} `{Stroke2D} (ctx : Ctx.t) (s : State) : Exn + Ctx.t :=
  let a := getArea s in
  let areaWidth := JS.round (area_width a) in
  let areaHeight := JS.round (area_height a) in
  let x := JS.round (area_x a) in
  let y := JS.round (area_y a) in
  let saved := ctx in
  let ctx := Ctx.mk (Ctx.canvas ctx) 0 0 in
  let read :=
    if negb (areaWidth =? 0)%Z && negb (areaHeight =? 0)%Z then
      match Ctx.getImageData x y areaWidth areaHeight ctx with
      | inl e => inl e
      | inr imageData =>
          inr (Some imageData,
               if (areaWidth <? 0)%Z then (x + areaWidth)%Z else x,
               if (areaHeight <? 0)%Z then (y + areaHeight)%Z else y)
      end
    else inr (None, x, y) in
  match read with
  | inl e => inl e
  | inr (imageData, x, y) =>
      let ctx :=
        if negb (areaWidth =? 0)%Z || negb (areaHeight =? 0)%Z || keepMask s
        then addMask ctx s else ctx in
      let ctx :=
        match imageData with
        | Some data => Ctx.putImageData data x y ctx
        | None => ctx
        end in
      let ctx :=
        Ctx.paint
          (stroke_rect (area_x a + (1 # 2)) (area_y a + (1 # 2))
                       areaWidth areaHeight) ctx in
      inr (Ctx.mk (Ctx.canvas ctx) (Ctx.tx saved) (Ctx.ty saved))
  end.

(** A stand-in for the platform's outline, used by the examples: the
    one-pixel frame of the rectangle, in the outline colour #006494. *)
Definition sample_stroke : Stroke2D := {|
  stroke_rect x y w h i j :=
    let r := mkIntRect (Qfloor x) (Qfloor y) (w + 1) (h + 1) in
    let inner := mkIntRect (Qfloor x + 1) (Qfloor y + 1) (w - 1) (h - 1) in
    if covers r i j && negb (covers inner i j) then Some 6591743%Z else None
|}.

(** * uploaded-images.js

    The list of uploaded images: reading the chosen files, the list of
    thumbnails, the active image, and the first initialisation of the
    canvas.  Styling that nothing reads back (the hidden class of the
    editor, the visibility of the selection toggle) is left out. *)

(** A file handed over by a file input or a drop.  [file_content] is the
    picture the platform decodes it to, if it can. *)
Record File := mkFile {
  file_name : string;
  file_type : string;
  file_size : Z;
  file_content : option Image
}.

(** The record [readImage] resolves with. *)
Record ImageRecord := mkImageRecord {
  rec_file : File;
  rec_blobUrl : string;
  rec_name : string;
  rec_sizeString : string;
  rec_type : string;
  rec_width : Z;
  rec_height : Z;
  rec_aspectRatio : Q
}.

(** An item of the thumbnail list, as [renderUploadedImage] writes it:
    its data-index, the source of its image, and whether it carries the
    class "active". *)
Record ListItem := mkListItem {
  item_index : Z;
  item_src : string;
  item_active : bool
}.

(** A call of [readImage] in flight: the file, the object URL made for
    it, and the files of the batch still to be read after it. *)
Record Read := mkRead {
  read_file : File;
  read_url : string;
  read_rest : list File
}.

(** What uploaded-images.js takes from elsewhere: [getFileSizeString] of
    utils.js and the object URLs the platform hands out, the n-th one
    being [objectURL n]. *)
Class UploadsHost := {
  getFileSizeString : Z -> string;
  objectURL : nat -> string
}.

(** The page: canvas.js, the variables of uploaded-images.js and the part
    of the document they write. *)
Record App := mkApp {
  canvasJs : State;  (* the module canvas.js *)
  canvasCount : nat;  (* canvas elements inserted into the editor *)
  introElement : bool;  (* #js-intro is still in the document *)
  canvasListeners : bool;  (* wheel, pointerdown and dblclick are listened to on the canvas *)
  windowWidth : Z;  (* window.innerWidth *)
  windowHeight : Z;  (* window.innerHeight *)
  images : list ImageRecord;  (* the array images *)
  activeImageIndex : Z;  (* activeImageIndex *)
  activeListItem : option nat;  (* activeListItem: the list item last highlighted, by its position *)
  listItems : list ListItem;  (* the children of #js-uploaded-images-list *)
  preview : option ImageRecord;  (* the image shown in the preview *)
  documentTitle : string;  (* document.title *)
  pings : nat;  (* upload indicators created *)
  minted : nat;  (* object URLs created so far *)
  reads : list Read  (* readImage calls whose image has not loaded yet *)
}.

Definition with_canvasJs (v : State) (a : App) : App :=
  mkApp v (canvasCount a) (introElement a) (canvasListeners a) (windowWidth a) (windowHeight a) (images a) (activeImageIndex a) (activeListItem a) (listItems a) (preview a) (documentTitle a) (pings a) (minted a) (reads a).

Definition with_canvasCount (v : nat) (a : App) : App :=
  mkApp (canvasJs a) v (introElement a) (canvasListeners a) (windowWidth a) (windowHeight a) (images a) (activeImageIndex a) (activeListItem a) (listItems a) (preview a) (documentTitle a) (pings a) (minted a) (reads a).

Definition with_introElement (v : bool) (a : App) : App :=
  mkApp (canvasJs a) (canvasCount a) v (canvasListeners a) (windowWidth a) (windowHeight a) (images a) (activeImageIndex a) (activeListItem a) (listItems a) (preview a) (documentTitle a) (pings a) (minted a) (reads a).

Definition with_canvasListeners (v : bool) (a : App) : App :=
  mkApp (canvasJs a) (canvasCount a) (introElement a) v (windowWidth a) (windowHeight a) (images a) (activeImageIndex a) (activeListItem a) (listItems a) (preview a) (documentTitle a) (pings a) (minted a) (reads a).

Definition with_images (v : list ImageRecord) (a : App) : App :=
  mkApp (canvasJs a) (canvasCount a) (introElement a) (canvasListeners a) (windowWidth a) (windowHeight a) v (activeImageIndex a) (activeListItem a) (listItems a) (preview a) (documentTitle a) (pings a) (minted a) (reads a).

Definition with_activeImageIndex (v : Z) (a : App) : App :=
  mkApp (canvasJs a) (canvasCount a) (introElement a) (canvasListeners a) (windowWidth a) (windowHeight a) (images a) v (activeListItem a) (listItems a) (preview a) (documentTitle a) (pings a) (minted a) (reads a).

Definition with_activeListItem (v : option nat) (a : App) : App :=
  mkApp (canvasJs a) (canvasCount a) (introElement a) (canvasListeners a) (windowWidth a) (windowHeight a) (images a) (activeImageIndex a) v (listItems a) (preview a) (documentTitle a) (pings a) (minted a) (reads a).

Definition with_listItems (v : list ListItem) (a : App) : App :=
  mkApp (canvasJs a) (canvasCount a) (introElement a) (canvasListeners a) (windowWidth a) (windowHeight a) (images a) (activeImageIndex a) (activeListItem a) v (preview a) (documentTitle a) (pings a) (minted a) (reads a).

Definition with_preview (v : option ImageRecord) (a : App) : App :=
  mkApp (canvasJs a) (canvasCount a) (introElement a) (canvasListeners a) (windowWidth a) (windowHeight a) (images a) (activeImageIndex a) (activeListItem a) (listItems a) v (documentTitle a) (pings a) (minted a) (reads a).

Definition with_documentTitle (v : string) (a : App) : App :=
  mkApp (canvasJs a) (canvasCount a) (introElement a) (canvasListeners a) (windowWidth a) (windowHeight a) (images a) (activeImageIndex a) (activeListItem a) (listItems a) (preview a) v (pings a) (minted a) (reads a).

Definition with_pings (v : nat) (a : App) : App :=
  mkApp (canvasJs a) (canvasCount a) (introElement a) (canvasListeners a) (windowWidth a) (windowHeight a) (images a) (activeImageIndex a) (activeListItem a) (listItems a) (preview a) (documentTitle a) v (minted a) (reads a).

Definition with_minted (v : nat) (a : App) : App :=
  mkApp (canvasJs a) (canvasCount a) (introElement a) (canvasListeners a) (windowWidth a) (windowHeight a) (images a) (activeImageIndex a) (activeListItem a) (listItems a) (preview a) (documentTitle a) (pings a) v (reads a).

Definition with_reads (v : list Read) (a : App) : App :=
  mkApp (canvasJs a) (canvasCount a) (introElement a) (canvasListeners a) (windowWidth a) (windowHeight a) (images a) (activeImageIndex a) (activeListItem a) (listItems a) (preview a) (documentTitle a) (pings a) (minted a) v.
(** The result of a block of uploaded-images.js: it completes, or it
    throws (inside an async function: its promise is rejected) and leaves
    the page as it was at the throw. *)
Inductive AppOutcome :=
| AppDone (a : App)
| AppThrew (e : Exn) (a : App).

Definition app_then (o : AppOutcome) (k : App -> AppOutcome) : AppOutcome :=
  match o with
  | AppDone a => k a
  | AppThrew e a => AppThrew e a
  end.

Definition app_final (o : AppOutcome) : App :=
  match o with AppDone a | AppThrew _ a => a end.

(** [s.includes(sub)]. *)
Definition contains (sub s : string) : bool :=
  match String.index 0 sub s with Some _ => true | None => false end.

(** [array[i]] for a number [i]: undefined outside the array. *)
Definition at_index {A : Type} (l : list A) (i : Z) : option A :=
  if (i <? 0)%Z then None else nth_error l (Z.to_nat i).

Definition getActiveImage (a : App) : option ImageRecord :=
  at_index (images a) (activeImageIndex a).

Definition getImages (a : App) : list ImageRecord := images a.

(** Adding or removing the class "active" on the list item at a
    position. *)
Fixpoint mark (k : nat) (v : bool) (items : list ListItem) : list ListItem :=
  match items, k with
  | [], _ => []
  | item :: rest, O => mkListItem (item_index item) (item_src item) v :: rest
  | item :: rest, S k' => item :: mark k' v rest
  end.

(** [list.children[index]]. *)
Definition child (a : App) (index : Z) : option nat :=
  match at_index (listItems a) index with
  | Some _ => Some (Z.to_nat index)
  | None => None
  end.

(** [document.querySelector(".uploaded-images-list-item")]. *)
Definition firstListItem (a : App) : option nat :=
  match listItems a with [] => None | _ :: _ => Some O end.

Definition updateImagePreview (image : option ImageRecord) (a : App) : AppOutcome :=
  match image with
  | None => AppThrew TypeError a
  | Some r => AppDone (with_preview (Some r) a)
  end.

Definition setDocumentTitle (title : string) (a : App) : App :=
  with_documentTitle (title ++ " | Imagis") a.

Definition highlightImage (element : option nat) (a : App) : AppOutcome :=
  let a :=
    match activeListItem a with
    | Some old => with_listItems (mark old false (listItems a)) a
    | None => a
    end in
  let a := with_activeListItem element a in
  match element with
  | None => AppThrew TypeError a
  | Some k => AppDone (with_listItems (mark k true (listItems a)) a)
  end.

(** [resetCanvasDimensions]. *)
Definition resetCanvasDimensions (a : App) : App :=
  with_canvasJs
    (set_canvasHeight (windowHeight a)
       (set_canvasWidth (windowWidth a) (canvasJs a))) a.

(** [initCanvasElement]: the context is handed to transform.js, the
    canvas takes the size of the window, the image is loaded and the
    canvas starts listening. *)
Definition initCanvasElement (blobUrl : string) (a : App) : App :=
  let a := resetCanvasDimensions a in
  let a := with_canvasJs (loadImageFile blobUrl (canvasJs a)) a in
  with_canvasListeners true a.

(** [initCanvas]: a canvas is inserted, the intro is removed (a null
    dereference when it is gone already), the canvas is initialised. *)
Definition initCanvas (blobUrl : string) (a : App) : AppOutcome :=
  let a := with_canvasCount (S (canvasCount a)) a in
  if introElement a then
    let a := with_introElement false a in
    AppDone (initCanvasElement blobUrl a)
  else AppThrew TypeError a.

Definition setActiveImage (index : Z) (a : App) : AppOutcome :=
  let element := child a index in
  let image := at_index (images a) index in
  let a := with_activeImageIndex index a in
  app_then (updateImagePreview image a) (fun a =>
  app_then (highlightImage element a) (fun a =>
  match image with
  | Some r => AppDone (setDocumentTitle (rec_name r) a)
  | None => AppThrew TypeError a
  end)).

Definition doneReadingImages (a : App) : AppOutcome :=
  let image := hd_error (images a) in
  app_then (updateImagePreview image a) (fun a =>
  app_then (highlightImage (firstListItem a) a) (fun a =>
  match image with
  | Some r => initCanvas (rec_blobUrl r) (setDocumentTitle (rec_name r) a)
  | None => AppThrew TypeError a
  end)).

Definition renderUploadedImage (image : ImageRecord) (a : App) : App :=
  let index := (Z.of_nat (List.length (images a)) - 1)%Z in
  with_listItems (listItems a ++ [mkListItem index (rec_blobUrl image) false]) a.

Definition indicateImageUpload (a : App) : App := with_pings (S (pings a)) a.

(** [readImages] up to its [await]: the first file is taken off the
    batch and [readImage] is called on it.  On an empty batch the file is
    undefined and creating its object URL throws. *)
Definition readImages `{UploadsHost} (imagesToRead : list File) (a : App) : AppOutcome :=
  match imagesToRead with
  | [] => AppThrew TypeError a
  | imageToRead :: rest =>
      let blobUrl := objectURL (minted a) in
      let a := with_minted (S (minted a)) a in
      AppDone (with_reads (reads a ++ [mkRead imageToRead blobUrl rest]) a)
  end.

(** The record [readImage] resolves with once the picture has loaded. *)
Definition imageRecord `{UploadsHost} (r : Read) (picture : Image) : ImageRecord :=
  let file := read_file r in
  mkImageRecord file (read_url r) (file_name file)
    (getFileSizeString (file_size file)) (file_type file)
    (img_width picture) (img_height picture)
    (inject_Z (img_width picture) / inject_Z (img_height picture)).

Fixpoint remove_nth {A : Type} (k : nat) (l : list A) : list A :=
  match l, k with
  | [], _ => []
  | _ :: rest, O => rest
  | x :: rest, S k' => x :: remove_nth k' rest
  end.

(** [readImages] after its [await], for the read at position [k] of
    those in flight: nothing happens while the picture has not loaded
    (it never does for a file that cannot be decoded).  The recursive
    call for the rest of the batch is not awaited. *)
Definition readImages_resume `{UploadsHost} (k : nat) (a : App) : AppOutcome :=
  match nth_error (reads a) k with
  | None => AppDone a
  | Some r =>
      match file_content (read_file r) with
      | None => AppDone a
      | Some picture =>
          let a := with_reads (remove_nth k (reads a)) a in
          let image := imageRecord r picture in
          let a := with_images (images a ++ [image]) a in
          let a := renderUploadedImage image a in
          let a := indicateImageUpload a in
          match read_rest r with
          | _ :: _ => AppDone (app_final (readImages (read_rest r) a))
          | [] =>
              match activeListItem a with
              | None => doneReadingImages a
              | Some _ => AppDone a
              end
          end
      end
  end.

Definition filterOutNonImages (files : list File) : list File :=
  filter (fun file => contains "image" (file_type file)) files.

Definition readFiles `{UploadsHost} (files : list File) (a : App) : AppOutcome :=
  let images := filterOutNonImages files in
  match images with
  | _ :: _ => readImages images a
  | [] => AppDone a
  end.

(** The click handler of the upload panel, for a click inside the list
    item at position [k] (an element with data-type "image"); a click
    anywhere else finds no such element and does nothing. *)
Definition imageClicked (k : nat) (a : App) : AppOutcome :=
  match nth_error (listItems a) k with
  | None => AppDone a
  | Some item =>
      let index := item_index item in
      match at_index (images a) index with
      | None => AppThrew TypeError a
      | Some r =>
          app_then
            (if negb (index =? activeImageIndex a)%Z then
               let a := with_activeImageIndex index a in
               app_then (updateImagePreview (at_index (images a) index) a) (fun a =>
               app_then (highlightImage (Some k) a) (fun a =>
               let a := setDocumentTitle (file_name (rec_file r)) a in
               AppDone (with_canvasJs (emit ResetCropPanelInputs (canvasJs a)) a)))
             else AppDone a)
            (fun a =>
               AppDone (with_canvasJs (loadImageFile (rec_blobUrl r) (canvasJs a)) a))
      end
  end.

(** What happens to the list of uploads: files are chosen or dropped, a
    picture in flight loads, a thumbnail is clicked. *)
Inductive UploadEvent :=
| FilesChosen (files : list File)
| PictureLoaded (k : nat)
| ThumbnailClicked (k : nat).

Definition upload_step `{UploadsHost} (e : UploadEvent) (a : App) : AppOutcome :=
  match e with
  | FilesChosen files => readFiles files a
  | PictureLoaded k => readImages_resume k a
  | ThumbnailClicked k => imageClicked k a
  end.

Fixpoint upload_run `{UploadsHost} (events : list UploadEvent) (a : App) : AppOutcome :=
  match events with
  | [] => AppDone a
  | e :: rest => app_then (upload_step e a) (upload_run rest)
  end.

(** The page as it is loaded: nothing uploaded, the intro shown, no
    canvas. *)
Definition initial_app (s : State) (w h : Z) : App :=
  mkApp s 0 true false w h [] 0 None [] None "" 0 0 [].

(** What uploaded-images.js keeps true of the list: it shows the images,
    item by item, and the highlighted item is the only one marked
    active. *)
Definition list_inv (a : App) : Prop :=
  List.length (listItems a) = List.length (images a)
  /\ (forall (k : nat) (item : ListItem),
         nth_error (listItems a) k = Some item ->
         item_index item = Z.of_nat k
         /\ exists r, nth_error (images a) k = Some r
                      /\ item_src item = rec_blobUrl r)
  /\ (forall (k : nat) (item : ListItem),
         nth_error (listItems a) k = Some item ->
         (item_active item = true <-> activeListItem a = Some k))
  /\ (forall k, activeListItem a = Some k -> (k < List.length (listItems a))%nat).

(** What it keeps true of the page: moreover the highlighted item is the
    one of the active image, and the canvas is created once, when the
    intro is removed, and not before an item has been highlighted. *)
Definition uploads_inv (a : App) : Prop :=
  list_inv a
  /\ activeImageIndex a
     = match activeListItem a with Some k => Z.of_nat k | None => 0%Z end
  /\ (introElement a = true <-> canvasCount a = O)
  /\ (introElement a = false ->
      canvasCount a = 1%nat /\ canvasListeners a = true
      /\ activeListItem a <> None)
  /\ (introElement a = true -> canvasListeners a = false).

(** The pages that events can lead to. *)
Definition reachable `{UploadsHost} (a : App) : Prop :=
  exists (events : list UploadEvent) (s : State) (w h : Z),
    upload_run events (initial_app s w h) = AppDone a.

(** A stand-in for the host, used by the examples: the n-th object URL is
    "blob:" followed by n strokes. *)
Fixpoint strokes (n : nat) : string :=
  match n with O => "" | S n' => String "i" (strokes n') end.

Definition sample_host : UploadsHost := {|
  getFileSizeString _ := "1 kB"%string;
  objectURL n := ("blob:" ++ strokes n)%string
|}.

(** Two pictures and a text file, as a file input could hand them over. *)
Definition photo : File := mkFile "photo.png" "image/png" 1024 (Some sample_image).
Definition notes : File := mkFile "notes.txt" "text/plain" 12 None.
Definition sketch : File :=
  mkFile "sketch.jpg" "image/jpeg" 2048
    (Some (mkImage 64 48 (fun i j => (i * j)%Z))).

(** The page after [photo], [notes] and [sketch] have been chosen and
    both pictures have loaded. *)
Definition sample_events : list UploadEvent :=
  [FilesChosen [photo; notes; sketch]; PictureLoaded 0; PictureLoaded 0].

Definition sample_page : App :=
  app_final (@upload_run sample_host sample_events (initial_app sample_state 800 600)).

(** * Properties *)

(** ** Facts about the primitives *)

Lemma gt_spec a b : JS.gt a b = true <-> b < a.
Proof.
  unfold JS.gt. rewrite Qgt_alt. destruct (a ?= b); split; congruence.
Qed.


Lemma gt_false a b : JS.gt a b = false <-> a <= b.
Proof.
  unfold JS.gt. rewrite Qle_alt. destruct (a ?= b); split; congruence.
Qed.


Lemma truthy_spec q : JS.truthy q = true <-> ~ q == 0.
Proof.
  unfold JS.truthy. rewrite negb_true_iff. split.
  - intros H E. apply Qeq_bool_iff in E. congruence.
  - intros H. destruct (Qeq_bool q 0) eqn:E; trivial.
    apply Qeq_bool_iff in E. contradiction.
Qed.

Lemma truthy_false q : JS.truthy q = false <-> q == 0.
Proof.
  unfold JS.truthy. rewrite negb_false_iff. apply Qeq_bool_iff.
Qed.

(** ** Reading a field after updates *)

Ltac state_simpl :=
  unfold getArea, getDirection, getTransform, getRotation, getFlip,
    isPanelVisible in *;
  cbn [emit requestAnimationFrame setCanvasCursor drawCanvas
       allowCropAreaModification disableCutMode resetRotation resetArea
       getArea getDirection getTransform getRotation getFlip isPanelVisible
       set_area set_direction set_transform set_rotation set_flip
       set_panelVisible set_canvasImage set_canvasWidth set_canvasHeight set_pointerPosition
       set_eventToEnable set_keepMask set_selectionDisabled set_snapArea set_cutModeEnabled
       set_handlingMove set_cropBtnVisible set_userSelect set_cursor set_moveListener
       set_upListener set_cursorListener set_rafQueue set_pendingSrc set_log
       area direction transform rotation flip panelVisible
       canvasImage canvasWidth canvasHeight pointerPosition eventToEnable keepMask
       selectionDisabled snapArea cutModeEnabled handlingMove cropBtnVisible userSelect
       cursor moveListener upListener cursorListener rafQueue pendingSrc
       log isMobile
       area_x area_y area_width area_height pt_x pt_y
       t_a t_b t_c t_d t_e t_f and_then final_state fst snd] in *.

(** ** Resizing *)



(** ** Moving with snap *)















Example moveArea_snap_5px :
  area (final_state (moveArea 5 100 snap_state)) = mkArea 0 100 20 20.
Proof. vm_compute. reflexivity. Qed.


(** ** Double-click: extending to the image's edge *)





Lemma areaDrawn_true a :
  areaDrawn a = true <-> ~ area_width a == 0 /\ ~ area_height a == 0.
Proof.
  unfold areaDrawn. rewrite andb_true_iff, !truthy_spec. tauto.
Qed.

Lemma areaDrawn_false a :
  areaDrawn a = false <-> area_width a == 0 \/ area_height a == 0.
Proof.
  unfold areaDrawn. rewrite andb_false_iff, !truthy_false. tauto.
Qed.





(** ** Pointer-up *)

(** C8 (as the code has it).  On pointer-up the gesture ends and the
    window listeners of the gesture are removed.  If width and height are
    both non-zero the crop button is shown and cursor feedback starts;
    nothing is painted.  If either of them is zero the mask is dropped,
    the image is redrawn without overlay, the cursor is reset and the crop
    panel is told to reset its inputs; the crop button is not shown. *)
Theorem handlePointerup_outcome :
  forall s : State,
    let a := area s in
    let s' := handlePointerup s in
    eventToEnable s' = GNone
    /\ moveListener s' = false /\ upListener s' = false
    /\ area s' = a
    /\ (~ area_width a == 0 /\ ~ area_height a == 0 ->
        cropBtnVisible s' = true /\ cursorListener s' = true
        /\ keepMask s' = keepMask s /\ log s' = log s)
    /\ (area_width a == 0 \/ area_height a == 0 ->
        keepMask s' = false /\ cursor s' = "default"%string
        /\ log s' = log s ++ [DrawImage; ResetCropPanelInputs]
        /\ cropBtnVisible s' = cropBtnVisible s
        /\ cursorListener s' = cursorListener s).
Proof.
  intros s a s'. subst s' a. unfold handlePointerup. state_simpl.
  destruct (areaDrawn (area s)) eqn:D; state_simpl.
  - apply areaDrawn_true in D.
    repeat (split; [reflexivity|]). split.
    + intros _. repeat split.
    + intros [Z|Z]; tauto.
  - apply areaDrawn_false in D.
    repeat (split; [reflexivity|]). split.
    + intros [W H]. tauto.
    + intros _. rewrite <- app_assoc. repeat split.
Qed.

Lemma handlePointerup_outcome_witness :
  let s := set_eventToEnable GSelect (set_area (mkArea 10 10 5 7) sample_state) in
  cropBtnVisible (handlePointerup s) = true
  /\ cursorListener (handlePointerup s) = true
  /\ keepMask (handlePointerup s) = keepMask s
  /\ log (handlePointerup s) = log s.
Proof.
  intros s.
  destruct (handlePointerup_outcome s) as (_ & _ & _ & _ & D & _).
  apply D. split; vm_compute; discriminate.
Defined.

(** C8 as stated fails for a selection that is flat on one axis: after
    dragging from (10, 10) to (15, 10) the Area is 5 wide and 0 high, so
    not both of its extents are zero, yet pointer-up treats it like an
    empty selection: no crop button, no cursor feedback, and the crop
    panel is reset. *)
Lemma handlePointerup_flat_counterexample :
  let s := set_eventToEnable GSelect (set_area (mkArea 10 10 5 0) sample_state) in
  ~ (area_width (area s) == 0 /\ area_height (area s) == 0)
  /\ cropBtnVisible (handlePointerup s) = false
  /\ cursorListener (handlePointerup s) = false
  /\ log (handlePointerup s) = [DrawImage; ResetCropPanelInputs].
Proof.
  cbv zeta. split.
  - intros [W _]. vm_compute in W. discriminate.
  - repeat split.
Qed.

(** ** Pointer-down: classification of the gesture *)

Section Pointerdown.

Context `{AreaModule}.

(** C5 (as the code has it).  Only a pointer-down of the primary button
    ([which] is 1) while the panel is hidden starts a gesture; any other
    pointer-down leaves the session as it is.  In cut mode it goes
    straight to resizing, with the Area, the direction and the grab point
    untouched.  Otherwise, with "drawn" meaning that width and height are
    both non-zero, in this order: shift held or selection disabled gives
    dragging; else ctrl held (or a mobile context) on a drawn Area with
    the pointer inside gives moving, grabbed at the pointer's offset from
    the Area's origin; else a detected direction on a drawn Area gives
    resizing; else a selection starts with an empty Area at the pointer.
    In the first three cases the Area is left as it was. *)
Theorem handlePointerdown_classifies :
  forall (event : PointerEvent) (s : State),
    let s' := handlePointerdown event s in
    let x := clientX event in
    let y := clientY event in
    let a := area s in
    (which event <> 1%Z \/ panelVisible s = true -> s' = s)
    /\ (which event = 1%Z -> panelVisible s = false ->
        (cutModeEnabled s = true ->
         eventToEnable s' = GResize /\ area s' = a
         /\ direction s' = direction s
         /\ pointerPosition s' = pointerPosition s)
        /\ (cutModeEnabled s = false ->
            if shiftKey event || selectionDisabled s then
              eventToEnable s' = GDrag /\ area s' = a
            else if (ctrlKey event || isMobile s) && areaDrawn a
                    && inside_area a x y then
              eventToEnable s' = GMove /\ area s' = a
              /\ pointerPosition s' = Some (mkPoint (x - area_x a) (y - area_y a))
            else if nonempty (detect_direction a x y) && areaDrawn a then
              eventToEnable s' = GResize /\ area s' = a
            else
              eventToEnable s' = GSelect /\ area s' = mkArea x y 0 0)).
Proof.
  intros event s s' x y a. subst s' x y a. unfold handlePointerdown.
  split.
  - intros [W|P].
    + apply Z.eqb_neq in W. rewrite W. reflexivity.
    + unfold isPanelVisible. rewrite P, orb_true_r. reflexivity.
  - intros W P. apply Z.eqb_eq in W. unfold isPanelVisible.
    rewrite W, P. cbn [negb orb]. split; intros C; rewrite C.
    + state_simpl. repeat split.
    + unfold setDirection, isInsideArea. state_simpl.
      destruct (shiftKey event || selectionDisabled s); state_simpl;
        [repeat split|].
      destruct ((ctrlKey event || isMobile s) && areaDrawn (area s)
                && inside_area (area s) (clientX event) (clientY event));
        state_simpl; [repeat split|].
      destruct (nonempty (detect_direction (area s) (clientX event) (clientY event))
                && areaDrawn (area s));
        state_simpl; repeat split.
Qed.

End Pointerdown.

Lemma handlePointerdown_classifies_witness :
  let s := set_area (mkArea 10 20 100 50) sample_state in
  let s' := @handlePointerdown sample_area_module (mkPointerEvent 1 60 40 false true) s in
  eventToEnable s' = GMove /\ area s' = mkArea 10 20 100 50
  /\ pointerPosition s' = Some (mkPoint (60 - 10) (40 - 20)).
Proof.
  intros s s'.
  destruct (@handlePointerdown_classifies sample_area_module
              (mkPointerEvent 1 60 40 false true) s) as [_ C].
  destruct (C eq_refl eq_refl) as [_ D].
  exact (D eq_refl).
Defined.

(** C5 as stated fails for a pointer-down that is not of the primary
    button: with shift held and the panel hidden it is not classified as
    dragging, it is ignored. *)
Lemma handlePointerdown_secondary_button_counterexample :
  let event := mkPointerEvent 3 60 40 true false in
  panelVisible sample_state = false
  /\ shiftKey event = true
  /\ eventToEnable (@handlePointerdown sample_area_module event sample_state) <> GDrag
  /\ @handlePointerdown sample_area_module event sample_state = sample_state.
Proof.
  cbv zeta. repeat split. vm_compute. discriminate.
Qed.

(** ** Pointer-move: clamping and coalescing *)

Lemma clamp_nonneg (c : Q) : 0 <= clamp c.
Proof.
  unfold clamp. destruct (JS.gt c 0) eqn:E.
  - apply gt_spec in E. lra.
  - lra.
Qed.

Lemma clamp_negative (c : Q) : c <= 0 -> clamp c = 0.
Proof.
  intros L. unfold clamp. apply gt_false in L. rewrite L. reflexivity.
Qed.

(** What a dispatch adds to the record of calls: the one call of the
    mutator of the active gesture, whether it returns or throws. *)
Lemma dispatch_log (g : Gesture) (x y : Q) (s : State) :
  log (final_state (dispatch g x y s))
  = log s ++ mutator_call g x y.
Proof.
  destruct g; unfold dispatch, mutator_call.
  - state_simpl. rewrite app_nil_r. reflexivity.
  - unfold selectArea. state_simpl. reflexivity.
  - unfold resizeArea. state_simpl. reflexivity.
  - unfold moveArea, updatePoint. state_simpl.
    destruct (snapArea s); destruct (pointerPosition s) eqn:P;
      state_simpl; rewrite ?P; state_simpl; reflexivity.
  - unfold dragImage, translateContext. state_simpl.
    destruct (pointerPosition s); state_simpl; reflexivity.
Qed.

Lemma final_state_and_then_log (o : Outcome) (k : State -> State) :
  (forall s, log (k s) = log s) ->
  log (final_state (o >>= fun s => Done (k s))) = log (final_state o).
Proof.
  intros K. destruct o; cbn [and_then final_state]; [apply K | reflexivity].
Qed.

(** C10.  Whatever a pointer-move hands to a per-state mutator is the
    event's position with each coordinate replaced by 0 unless it is
    positive: the calls the handler adds to the record are at most one,
    of the mutator of the active gesture, at the clamped position, and
    both coordinates of that position are non-negative; a negative
    coordinate is passed as 0. *)
Theorem handlePointermove_clamps :
  forall (event : PointerEvent) (s : State),
    exists calls : list Effect,
      log (final_state (handlePointermove event s)) = log s ++ calls
      /\ (forall (g : Gesture) (x y : Q),
             In (Mutator g x y) calls ->
             g = eventToEnable s
             /\ x = clamp (clientX event) /\ y = clamp (clientY event)
             /\ 0 <= x /\ 0 <= y
             /\ (clientX event < 0 -> x = 0)
             /\ (clientY event < 0 -> y = 0))
      /\ (forall e, In e calls -> exists g x y, e = Mutator g x y).
Proof.
  intros event s. unfold handlePointermove.
  destruct (handlingMove s) eqn:M.
  - exists []. cbn [final_state]. rewrite app_nil_r.
    repeat split; intros; contradiction.
  - exists (mutator_call (eventToEnable s)
              (clamp (clientX event)) (clamp (clientY event))).
    split.
    + rewrite final_state_and_then_log by reflexivity.
      rewrite dispatch_log. state_simpl. reflexivity.
    + split.
      * intros g x y I.
        assert (E : Mutator g x y
                    = Mutator (eventToEnable s) (clamp (clientX event))
                              (clamp (clientY event))).
        { unfold mutator_call in I. destruct (eventToEnable s); cbn [In] in I;
            try contradiction; destruct I as [I|[]]; symmetry; exact I. }
        injection E as -> -> ->.
        repeat split; try apply clamp_nonneg;
          intros L; apply clamp_negative; lra.
      * intros e I. unfold mutator_call in I.
        destruct (eventToEnable s); cbn [In] in I;
          try contradiction; destruct I as [<-|[]]; eauto.
Qed.

Lemma handlePointermove_clamps_witness :
  let s := set_eventToEnable GSelect (set_area (mkArea 30 40 0 0) sample_state) in
  exists calls : list Effect,
    log (final_state (handlePointermove (pointer_at (-5) 70) s)) = log s ++ calls
    /\ calls = [Mutator GSelect 0 70]
    /\ (0 <= 0 /\ 0 <= 70).
Proof.
  intros s.
  destruct (handlePointermove_clamps (pointer_at (-5) 70) s) as (calls & L & C & _).
  exists calls. split; [exact L|].
  assert (E : calls = [Mutator GSelect 0 70]) by exact (eq_sym L).
  split; [exact E|].
  destruct (C GSelect 0 70) as (_ & _ & _ & X & Y & _).
  - rewrite E. left. reflexivity.
  - split; assumption.
Defined.

Example handlePointermove_negative :
  let s := set_eventToEnable GSelect (set_area (mkArea 30 40 0 0) sample_state) in
  log (final_state (handlePointermove (pointer_at (-5) 70) s))
  = [Mutator GSelect 0 70].
Proof. reflexivity. Qed.

(** One animation frame calls [drawCanvas] once per queued callback. *)
Lemma run_callbacks_log (q : list FrameCallback) (s : State) :
  log (fold_left (fun acc cb => run_callback cb acc) q s)
  = log s ++ repeat DrawCanvas (List.length q).
Proof.
  revert s. induction q as [|cb q IH]; intros s; cbn [fold_left List.length repeat].
  - rewrite app_nil_r. reflexivity.
  - rewrite IH. destruct cb; unfold run_callback; state_simpl;
      rewrite <- app_assoc; reflexivity.
Qed.

Lemma animationFrame_log (s : State) :
  log (animationFrame s) = log s ++ repeat DrawCanvas (List.length (rafQueue s)).
Proof.
  unfold animationFrame. rewrite run_callbacks_log. reflexivity.
Qed.

Lemma run_callbacks_handlingMove (q : list FrameCallback) (s : State) :
  In FrameMoveDone q ->
  handlingMove (fold_left (fun acc cb => run_callback cb acc) q s) = false.
Proof.
  revert s. induction q as [|cb q IH] using rev_ind; intros s I.
  - contradiction.
  - rewrite fold_left_app. cbn [fold_left].
    apply in_app_or in I. destruct cb; unfold run_callback; state_simpl.
    + destruct I as [I|[I|[]]]; [apply IH; exact I | discriminate].
    + reflexivity.
Qed.

(** While a redraw is pending, a pointer-move is dropped whole. *)
Lemma pointermoves_ignored (events : list PointerEvent) (s : State) :
  handlingMove s = true -> pointermoves events s = Done s.
Proof.
  intros M. induction events as [|event rest IH]; cbn [pointermoves].
  - reflexivity.
  - unfold handlePointermove. rewrite M. cbn [and_then]. exact IH.
Qed.

Lemma run_callbacks_rafQueue (q : list FrameCallback) (s : State) :
  rafQueue (fold_left (fun acc cb => run_callback cb acc) q s) = rafQueue s.
Proof.
  revert s. induction q as [|cb q IH]; intros s; cbn [fold_left].
  - reflexivity.
  - rewrite IH. destruct cb; reflexivity.
Qed.

(** The mutators touch neither the in-flight flag nor the frame queue. *)
Lemma dispatch_preserves (g : Gesture) (x y : Q) (s s0 : State) :
  dispatch g x y s = Done s0 ->
  handlingMove s0 = handlingMove s /\ rafQueue s0 = rafQueue s.
Proof.
  destruct g; unfold dispatch.
  - intros [= <-]. split; reflexivity.
  - intros [= <-]. split; reflexivity.
  - intros [= <-]. split; reflexivity.
  - unfold moveArea, updatePoint. state_simpl.
    destruct (snapArea s); destruct (pointerPosition s) eqn:P;
      state_simpl; rewrite ?P; state_simpl;
      intros [= <-]; split; reflexivity.
  - unfold dragImage, translateContext. state_simpl.
    destruct (pointerPosition s); intros [= <-]; split; reflexivity.
Qed.

(** C6 (as the code has it).  Of a burst of pointer-move events that
    arrive before the next animation frame, only the first is handled:
    its clamped position goes to the mutator of the active gesture, one
    redraw is queued and the in-flight flag is set; every later event of
    the burst returns at once, without reaching a mutator and without
    queueing anything.  When the frame runs, the redraw queued by the
    burst calls [drawCanvas] once -- with nothing else queued, exactly
    once in that frame -- and clears the flag. *)
Theorem pointermove_burst_coalesced :
  forall (event : PointerEvent) (rest : list PointerEvent) (s s1 : State),
    handlingMove s = false ->
    handlePointermove event s = Done s1 ->
    pointermoves (event :: rest) s = Done s1
    /\ log s1 = log s ++ mutator_call (eventToEnable s)
                            (clamp (clientX event)) (clamp (clientY event))
    /\ rafQueue s1 = rafQueue s ++ [FrameMoveDone]
    /\ handlingMove s1 = true
    /\ handlingMove (animationFrame s1) = false
    /\ rafQueue (animationFrame s1) = []
    /\ (rafQueue s = [] -> log (animationFrame s1) = log s1 ++ [DrawCanvas]).
Proof.
  intros event rest s s1 M E.
  assert (L := dispatch_log (eventToEnable s) (clamp (clientX event))
                 (clamp (clientY event)) (set_handlingMove true s)).
  assert (R : pointermoves (event :: rest) s = pointermoves rest s1)
    by (cbn [pointermoves]; rewrite E; reflexivity).
  unfold handlePointermove in E. rewrite M in E.
  change (eventToEnable (set_handlingMove true s)) with (eventToEnable s) in E.
  destruct (dispatch (eventToEnable s) (clamp (clientX event))
              (clamp (clientY event)) (set_handlingMove true s))
    as [s0|e s0] eqn:D; cbn [and_then final_state] in E, L; [|discriminate].
  injection E as <-.
  apply dispatch_preserves in D. destruct D as [D1 D2]. state_simpl.
  assert (F : handlingMove (requestAnimationFrame FrameMoveDone s0) = true)
    by exact D1.
  split; [rewrite R; apply pointermoves_ignored; exact F|].
  split; [exact L|].
  split; [rewrite D2; reflexivity|].
  split; [exact D1|].
  split.
  { unfold animationFrame. apply run_callbacks_handlingMove. state_simpl.
    apply in_or_app. right. left. reflexivity. }
  split.
  { unfold animationFrame. rewrite run_callbacks_rafQueue. reflexivity. }
  intros Q. rewrite animationFrame_log. state_simpl.
  rewrite D2, Q. reflexivity.
Qed.

Lemma pointermove_burst_coalesced_witness :
  let s := set_eventToEnable GSelect (set_area (mkArea 30 40 0 0) sample_state) in
  exists s1,
    pointermoves [pointer_at 50 60; pointer_at 70 90; pointer_at 80 95] s = Done s1
    /\ log s1 = [Mutator GSelect 50 60]
    /\ area s1 = mkArea 30 40 (50 - 30) (60 - 40)
    /\ log (animationFrame s1) = [Mutator GSelect 50 60; DrawCanvas].
Proof.
  intros s. eexists.
  destruct (pointermove_burst_coalesced (pointer_at 50 60)
              [pointer_at 70 90; pointer_at 80 95] s _ eq_refl eq_refl)
    as (B & L & _ & _ & _ & _ & F).
  split; [exact B|]. split; [exact L|]. split; [reflexivity|].
  exact (F eq_refl).
Defined.

(** C6 as stated fails on the dispatching: of two pointer-move events in
    one frame the second never reaches the mutator.  After the burst the
    selection still ends at the first position and the record holds a
    single call. *)
Lemma pointermove_burst_counterexample :
  let s := set_eventToEnable GSelect (set_area (mkArea 30 40 0 0) sample_state) in
  let s2 := final_state (pointermoves [pointer_at 50 60; pointer_at 70 90] s) in
  ~ In (Mutator GSelect 70 90) (log s2)
  /\ log s2 = [Mutator GSelect 50 60]
  /\ area s2 = mkArea 30 40 (50 - 30) (60 - 40)
  /\ area s2 <> mkArea 30 40 (70 - 30) (90 - 40).
Proof.
  cbv zeta. split; [|split; [|split]].
  - vm_compute. intros [E|[]]. discriminate.
  - reflexivity.
  - reflexivity.
  - vm_compute. discriminate.
Qed.


(** ** Loading an image *)

(** C7 (as the code has it).  Loading an image and completing its
    decoding puts the rotation back to 0, empties the Area and fits the
    Transform of the new image to the viewport; it also drops the mask,
    hides the crop button and leaves cut mode.  The flip flags are not
    touched: they stay as they were before the load. *)
Theorem loadImageFile_resets :
  forall (blobUrl : string) (decoded : Image) (s : State),
    let s' := canvasImage_onload decoded (loadImageFile blobUrl s) in
    rotation s' = 0
    /\ area s' = mkArea 0 0 0 0
    /\ transform s' = fit_transform (canvasWidth s) (canvasHeight s) decoded
    /\ canvasImage s' = decoded
    /\ flip s' = flip s
    /\ keepMask s' = false /\ cropBtnVisible s' = false
    /\ cutModeEnabled s' = false.
Proof.
  intros blobUrl decoded s. cbv zeta.
  unfold canvasImage_onload, loadImageFile, scaleImageToFitCanvas.
  state_simpl. repeat split.
Qed.

(** C7 as stated fails for Flip: an image loaded while the previous one
    was mirrored horizontally is shown mirrored too. *)
Lemma loadImageFile_flip_counterexample :
  let s := set_flip (mkFlip (-1) 1) sample_state in
  let s' := canvasImage_onload sample_image (loadImageFile "blob:next" s) in
  flip s' = mkFlip (-1) 1 /\ flip s' <> mkFlip 1 1.
Proof.
  cbv zeta. split; [reflexivity | vm_compute; discriminate].
Qed.

(** ** Crop extraction *)

Lemma dimension_nonneg (default v : Z) : (0 <= v)%Z -> Ctx.dimension default v = v.
Proof.
  intros L. unfold Ctx.dimension. destruct (Z.ltb_spec v 0); [lia | reflexivity].
Qed.

(** At scale 1 a whole number of pixels converts to itself. *)
Lemma round_whole (z : Z) : JS.round (inject_Z z / 1) = z.
Proof.
  unfold JS.round, Qfloor, Qdiv, Qmult, Qplus, Qinv, inject_Z.
  cbn [Qnum Qden]. rewrite !Z.mul_1_r.
  change (Z.pos (1 * 1 * 2)) with 2%Z.
  symmetry. apply (Z.div_unique _ 2 z 1); lia.
Qed.

Section Extraction.

Context `{Canvas2D}.

(** C1 (as the code has it).  The extractor does not validate the region
    itself.  When the width or the height of the Area, divided by the
    scale and rounded, is 0, reading the pixels throws the platform's
    IndexSizeError, so the promise is rejected and no raster is
    produced.  When both are non-zero -- negative ones included -- the
    promise resolves with a raster whose size is the absolute value of
    each, encoded with the requested type. *)
Theorem getCanvasSlice_extent :
  forall (image : Image) (type : string) (s : State),
    let r := transformedArea s in
    (r_width r = 0%Z \/ r_height r = 0%Z ->
     getCanvasSlice image type s = Rejected IndexSizeError)
    /\ (r_width r <> 0%Z -> r_height r <> 0%Z ->
        exists slice : Slice,
          getCanvasSlice image type s = Resolved slice
          /\ slice_width slice = Z.abs (r_width r)
          /\ slice_height slice = Z.abs (r_height r)
          /\ s_width (blob_raster (slice_file slice)) = Z.abs (r_width r)
          /\ s_height (blob_raster (slice_file slice)) = Z.abs (r_height r)
          /\ blob_type (slice_file slice) = type).
Proof.
  intros image type s r.
  unfold getCanvasSlice, getCroppedCanvas, getImageData, Ctx.getImageData.
  fold r. split.
  - intros Z.
    assert (E : ((r_width r =? 0) || (r_height r =? 0))%Z = true).
    { apply orb_true_iff. rewrite !Z.eqb_eq. exact Z. }
    rewrite E. reflexivity.
  - intros W Hh.
    assert (E : ((r_width r =? 0) || (r_height r =? 0))%Z = false).
    { apply orb_false_iff. rewrite !Z.eqb_neq. split; assumption. }
    rewrite E. eexists. split; [reflexivity|].
    cbn [slice_width slice_height slice_file blob_raster blob_type
         Ctx.putImageData Ctx.set_height Ctx.set_width Ctx.canvas Ctx.blank
         s_width s_height].
    rewrite !dimension_nonneg by apply Z.abs_nonneg.
    repeat split.
Qed.

(** C2 (as the code has it).  At scale 1 with no translation, no rotation
    and no flip, an Area of whole pixels (x, y, w, h) with positive w and
    h converts to itself.  If it lies inside the image and inside the
    viewport -- the offscreen surface the image is drawn on has the size
    of the viewport divided by the scale -- the extractor yields a raster
    of exactly w x h pixels whose pixel values are those of the image's
    block at (x, y, w, h). *)
Theorem getCroppedCanvas_identity :
  forall (image : Image) (s : State) (x y w h : Z),
    t_a (transform s) = 1 -> t_e (transform s) = 0 -> t_f (transform s) = 0 ->
    rotation s = 0 ->
    flip s = mkFlip 1 1 ->
    area s = mkArea (inject_Z x) (inject_Z y) (inject_Z w) (inject_Z h) ->
    (0 < w)%Z -> (0 < h)%Z -> (0 <= x)%Z -> (0 <= y)%Z ->
    (x + w <= img_width image)%Z -> (y + h <= img_height image)%Z ->
    (x + w <= canvasWidth s)%Z -> (y + h <= canvasHeight s)%Z ->
    transformedArea s = mkIntRect x y w h
    /\ exists raster : Surface,
         getCroppedCanvas image s = inr raster
         /\ s_width raster = w /\ s_height raster = h
         /\ forall i j : Z,
              (0 <= i < w)%Z -> (0 <= j < h)%Z ->
              s_px raster i j = img_px image (x + i) (y + j).
Proof.
  intros image s x y w h Ha He Hf Hr Hfl Harea Hw Hh Hx Hy HW HH HcW HcH.
  assert (T : transformedArea s = mkIntRect x y w h).
  { unfold transformedArea, getTransform, getArea. rewrite Ha, Harea.
    cbn [area_x area_y area_width area_height]. rewrite !round_whole.
    reflexivity. }
  split; [exact T|].
  unfold getCroppedCanvas, getImageData, Ctx.getImageData. rewrite T.
  cbn [r_x r_y r_width r_height].
  assert (E : ((w =? 0) || (h =? 0))%Z = false).
  { apply orb_false_iff. rewrite !Z.eqb_neq. lia. }
  rewrite E.
  destruct (Z.ltb_spec w 0) as [?|_]; [lia|].
  destruct (Z.ltb_spec h 0) as [?|_]; [lia|].
  eexists. split; [reflexivity|].
  cbn [Ctx.putImageData Ctx.set_height Ctx.set_width Ctx.canvas Ctx.blank
       s_width s_height s_px].
  rewrite !dimension_nonneg by lia. rewrite !Z.abs_eq by lia.
  split; [reflexivity|]. split; [reflexivity|].
  intros i j Hi Hj. rewrite !Z.sub_0_r.
  assert (B : Ctx.in_bounds w h i j = true).
  { unfold Ctx.in_bounds. rewrite !andb_true_iff, !Z.leb_le, !Z.ltb_lt. lia. }
  rewrite B.
  unfold drawImage, clearCanvas, getTransform, getRotation, getFlip.
  rewrite Ha, He, Hf, Hr, Hfl, !round_whole.
  unfold Ctx.pixel_at, Ctx.paint, Ctx.clear_rect, Ctx.translate,
    Ctx.set_height, Ctx.set_width, Ctx.create, Ctx.blank.
  cbn [Ctx.canvas Ctx.tx Ctx.ty s_width s_height s_px pt_x pt_y].
  rewrite !dimension_nonneg by lia.
  assert (Bc : Ctx.in_bounds (canvasWidth s) (canvasHeight s) (x + i) (y + j) = true).
  { unfold Ctx.in_bounds. rewrite !andb_true_iff, !Z.leb_le, !Z.ltb_lt. lia. }
  rewrite Bc.
  unfold Ctx.image_contribution.
  change (JS.truthy 0) with false.
  change (Ctx.is_integer (0 + 0 / 1)) with true.
  change (Ctx.unit_flip (mkFlip 1 1)) with true.
  change (Qfloor (0 + 0 / 1)) with 0%Z.
  cbn [orb andb negb flipH flipV Z.eqb]. rewrite !Z.sub_0_r.
  assert (Bi : Ctx.in_bounds (img_width image) (img_height image) (x + i) (y + j) = true).
  { unfold Ctx.in_bounds. rewrite !andb_true_iff, !Z.leb_le, !Z.ltb_lt. lia. }
  rewrite Bi. reflexivity.
Qed.

End Extraction.

Lemma getCanvasSlice_extent_witness :
  @getCanvasSlice sample_canvas sample_image "image/png" sample_state
  = Rejected IndexSizeError.
Proof.
  apply (@getCanvasSlice_extent sample_canvas sample_image "image/png" sample_state).
  left. reflexivity.
Defined.

(** C1 as stated fails for a selection dragged backwards: the Area
    {x: 100, y: 100, width: -60, height: -60} resolves to a width and a
    height of -60, yet the extraction resolves, with the 60 x 60 block of
    the image whose top-left pixel is (40, 40). *)
Lemma getCanvasSlice_negative_counterexample :
  let s := set_area (mkArea 100 100 (-60) (-60)) sample_state in
  (r_width (transformedArea s) <= 0)%Z
  /\ (r_height (transformedArea s) <= 0)%Z
  /\ exists slice : Slice,
       @getCanvasSlice sample_canvas sample_image "image/png" s = Resolved slice
       /\ slice_width slice = 60%Z /\ slice_height slice = 60%Z
       /\ s_px (blob_raster (slice_file slice)) 0 0 = img_px sample_image 40 40.
Proof.
  cbv zeta. split; [vm_compute; discriminate|].
  split; [vm_compute; discriminate|].
  eexists. split; [reflexivity|]. repeat split.
Qed.

Lemma getCroppedCanvas_identity_witness :
  let s := set_area (mkArea 10 20 100 50) sample_state in
  exists raster : Surface,
    @getCroppedCanvas sample_canvas sample_image s = inr raster
    /\ s_width raster = 100%Z /\ s_height raster = 50%Z
    /\ forall i j : Z,
         (0 <= i < 100)%Z -> (0 <= j < 50)%Z ->
         s_px raster i j = img_px sample_image (10 + i) (20 + j).
Proof.
  intros s.
  apply (@getCroppedCanvas_identity sample_canvas sample_image s 10 20 100 50);
    try reflexivity; cbn; lia.
Defined.

(** C2 as stated fails when the image is larger than the viewport: with
    the whole 400 x 300 image selected in a 200 x 150 viewport at scale 1,
    the raster has the size of the selection but is transparent wherever
    the selection leaves the viewport, for instance at (300, 200). *)
Lemma getCroppedCanvas_viewport_counterexample :
  transform narrow_state = mkTransform 1 0 0 1 0 0
  /\ rotation narrow_state = 0
  /\ flip narrow_state = mkFlip 1 1
  /\ transformedArea narrow_state = mkIntRect 0 0 400 300
  /\ img_width sample_image = 400%Z /\ img_height sample_image = 300%Z
  /\ exists raster : Surface,
       @getCroppedCanvas sample_canvas sample_image narrow_state = inr raster
       /\ s_width raster = 400%Z /\ s_height raster = 300%Z
       /\ s_px raster 300 200 = transparent
       /\ s_px raster 300 200 <> img_px sample_image (0 + 300) (0 + 200).
Proof.
  repeat (split; [reflexivity|]).
  eexists. split; [reflexivity|]. repeat (split; [reflexivity|]).
  vm_compute. discriminate.
Qed.

(** ** The session as a machine: what the handlers keep *)

Lemma fresh_gesture_inv (s : State) : fresh s -> gesture_inv s.
Proof.
  intros (G & P & M & U & Hm & Q). unfold gesture_inv.
  rewrite G, M, U, Hm, Q. repeat split; try congruence; try contradiction.
Qed.

Lemma in_queue_draw (q : list FrameCallback) :
  In FrameMoveDone (q ++ [FrameDraw]) <-> In FrameMoveDone q.
Proof.
  rewrite in_app_iff. cbn [In]. split; [intros [?|[?|[]]]|]; try tauto.
  discriminate.
Qed.

Lemma run_callbacks_no_move (q : list FrameCallback) (s : State) :
  ~ In FrameMoveDone q ->
  handlingMove (fold_left (fun acc cb => run_callback cb acc) q s)
  = handlingMove s.
Proof.
  revert s. induction q as [|cb q IH]; intros s N; cbn [fold_left].
  - reflexivity.
  - rewrite IH by (intros I; apply N; right; exact I).
    destruct cb; [reflexivity|]. exfalso. apply N. left. reflexivity.
Qed.

Lemma animationFrame_flag (s : State) :
  (handlingMove s = true <-> In FrameMoveDone (rafQueue s)) ->
  handlingMove (animationFrame s) = false.
Proof.
  intros I. unfold animationFrame.
  destruct (in_dec (fun a b : FrameCallback =>
                      ltac:(decide equality) : {a = b} + {a <> b})
                   FrameMoveDone (rafQueue s)) as [Y|N].
  - apply run_callbacks_handlingMove. exact Y.
  - rewrite run_callbacks_no_move by exact N. state_simpl.
    destruct (handlingMove s); [|reflexivity]. exfalso. apply N, I. reflexivity.
Qed.

Lemma run_callbacks_fields (q : list FrameCallback) (s : State) :
  let s' := fold_left (fun acc cb => run_callback cb acc) q s in
  eventToEnable s' = eventToEnable s
  /\ pointerPosition s' = pointerPosition s
  /\ moveListener s' = moveListener s
  /\ upListener s' = upListener s
  /\ area s' = area s.
Proof.
  revert s. induction q as [|cb q IH]; intros s; cbn [fold_left].
  - repeat split.
  - destruct (IH (run_callback cb s)) as (A & B & C & D & E).
    cbv zeta. rewrite A, B, C, D, E. destruct cb; repeat split.
Qed.

Lemma animationFrame_queue (s : State) : rafQueue (animationFrame s) = [].
Proof. unfold animationFrame. rewrite run_callbacks_rafQueue. reflexivity. Qed.

Lemma animationFrame_fields (s : State) :
  eventToEnable (animationFrame s) = eventToEnable s
  /\ pointerPosition (animationFrame s) = pointerPosition s
  /\ moveListener (animationFrame s) = moveListener s
  /\ upListener (animationFrame s) = upListener s
  /\ area (animationFrame s) = area s.
Proof.
  unfold animationFrame.
  apply (run_callbacks_fields (rafQueue s) (set_rafQueue [] s)).
Qed.

Lemma animationFrame_inv (s : State) :
  gesture_inv s -> gesture_inv (animationFrame s).
Proof.
  intros (G & M & U & F). unfold gesture_inv.
  rewrite (animationFrame_flag s F), animationFrame_queue.
  destruct (animationFrame_fields s) as (A & B & C & D & _).
  rewrite A, B, C, D.
  repeat split; try assumption; try apply M; try discriminate; try contradiction.
Qed.

(** The mutators leave the gesture, the grab point and the listeners. *)
Lemma dispatch_fields (g : Gesture) (x y : Q) (s : State) :
  let s' := final_state (dispatch g x y s) in
  eventToEnable s' = eventToEnable s
  /\ pointerPosition s' = pointerPosition s
  /\ moveListener s' = moveListener s
  /\ upListener s' = upListener s
  /\ handlingMove s' = handlingMove s
  /\ rafQueue s' = rafQueue s.
Proof.
  destruct g; unfold dispatch.
  - repeat split.
  - repeat split.
  - repeat split.
  - unfold moveArea, updatePoint. state_simpl.
    destruct (snapArea s); destruct (pointerPosition s) eqn:P;
      state_simpl; rewrite ?P; state_simpl; rewrite ?P; repeat split.
  - unfold dragImage, translateContext. state_simpl.
    destruct (pointerPosition s) eqn:P; state_simpl; rewrite ?P; repeat split.
Qed.

(** With a grab point the move mutator returns. *)
Lemma dispatch_returns (g : Gesture) (x y : Q) (s : State) :
  (g = GMove -> pointerPosition s <> None) ->
  exists s', dispatch g x y s = Done s'.
Proof.
  intros G. destruct g; unfold dispatch; try (eexists; reflexivity).
  unfold moveArea, updatePoint. state_simpl.
  destruct (pointerPosition s) eqn:P; [|exfalso; apply G; reflexivity].
  destruct (snapArea s); state_simpl; rewrite ?P; state_simpl; rewrite ?P;
    eexists; reflexivity.
Qed.

Lemma handlePointermove_inv (event : PointerEvent) (s : State) :
  gesture_inv s ->
  exists s', handlePointermove event s = Done s' /\ gesture_inv s'.
Proof.
  intros (G & M & U & F). unfold handlePointermove.
  destruct (handlingMove s) eqn:Hm.
  - eexists. split; [reflexivity|]. unfold gesture_inv. rewrite Hm. tauto.
  - change (eventToEnable (set_handlingMove true s)) with (eventToEnable s).
    destruct (dispatch_returns (eventToEnable s) (clamp (clientX event))
                (clamp (clientY event)) (set_handlingMove true s) G) as [s0 D].
    assert (Fd := dispatch_fields (eventToEnable s) (clamp (clientX event))
                    (clamp (clientY event)) (set_handlingMove true s)).
    rewrite D in *. cbn [and_then final_state] in *.
    destruct Fd as (A & B & C & E & Hh & Q).
    eexists. split; [reflexivity|]. unfold gesture_inv. state_simpl.
    rewrite A, B, C, E, Q, Hh.
    repeat split; try assumption; try apply M.
    intros _. apply in_or_app. right. left. reflexivity.
Qed.

Lemma handlePointerup_inv (s : State) :
  gesture_inv s -> gesture_inv (handlePointerup s).
Proof.
  intros (_ & _ & _ & F). unfold handlePointerup, gesture_inv.
  destruct (areaDrawn (getArea s)); state_simpl;
    (split; [discriminate|]); (split; [|split; [reflexivity | exact F]]);
    (split; [discriminate | intros N; exfalso; apply N; reflexivity]).
Qed.

Ltac keep_inv :=
  match goal with
  | H : gesture_inv _ |- _ =>
      destruct H as (G & M & U & F); unfold gesture_inv; state_simpl;
      rewrite ?in_queue_draw;
      repeat split; try assumption; try apply M; try apply F
  end.

Lemma handleDoubleClick_inv (s : State) :
  gesture_inv s -> gesture_inv (handleDoubleClick s).
Proof.
  intros I. unfold handleDoubleClick.
  destruct (negb (areaDrawn (getArea s))); [exact I|]. keep_inv.
Qed.

Lemma cutModeClick_inv (s : State) :
  gesture_inv s -> gesture_inv (cutModeClick s).
Proof.
  intros I. unfold cutModeClick. state_simpl.
  destruct (negb (cutModeEnabled s)); keep_inv.
Qed.

Lemma handleKeydown_inv (key : string) (ctrl : bool) (s : State) :
  gesture_inv s -> gesture_inv (handleKeydown key ctrl s).
Proof.
  intros I. unfold handleKeydown.
  destruct ((key =? "a")%string && ctrl); [keep_inv | exact I].
Qed.

Lemma loadImageFile_inv (blobUrl : string) (s : State) :
  gesture_inv s -> gesture_inv (loadImageFile blobUrl s).
Proof. intros I. unfold loadImageFile. keep_inv. Qed.

Lemma canvasImage_onload_inv (decoded : Image) (s : State) :
  gesture_inv s -> gesture_inv (canvasImage_onload decoded s).
Proof.
  intros I. unfold canvasImage_onload, scaleImageToFitCanvas.
  destruct (pendingSrc s); [keep_inv | exact I].
Qed.

Section Machine.

Context `{AreaModule}.

Lemma handlePointerdown_inv (event : PointerEvent) (s : State) :
  gesture_inv s -> gesture_inv (handlePointerdown event s).
Proof.
  intros I. unfold handlePointerdown.
  destruct (negb (which event =? 1)%Z || isPanelVisible s); [exact I|].
  destruct (cutModeEnabled s) eqn:C.
  - keep_inv; try discriminate; try reflexivity; try (intros _; discriminate).
  - unfold setDirection, isInsideArea. state_simpl.
    destruct (shiftKey event || selectionDisabled s);
      [|destruct ((ctrlKey event || isMobile s) && areaDrawn (area s)
                  && inside_area (area s) (clientX event) (clientY event));
        [|destruct (nonempty (detect_direction (area s) (clientX event)
                                (clientY event)) && areaDrawn (area s))]];
      keep_inv; try discriminate; try reflexivity; try (intros _; discriminate).
Qed.

Lemma changeCursor_inv (event : PointerEvent) (s : State) :
  gesture_inv s -> gesture_inv (changeCursor event s).
Proof.
  intros I. unfold changeCursor, setDirection.
  destruct (ctrlKey event); keep_inv.
Qed.

Lemma react_inv (i : Input) (s : State) :
  gesture_inv s -> exists s', react i s = Done s' /\ gesture_inv s'.
Proof.
  intros I. destruct i; cbn [react].
  - eexists. split; [reflexivity|]. apply handlePointerdown_inv, I.
  - destruct (moveListener s); [apply handlePointermove_inv, I|].
    eexists. split; [reflexivity | exact I].
  - destruct (cursorListener s); eexists; (split; [reflexivity|]);
      [apply changeCursor_inv, I | exact I].
  - destruct (upListener s); eexists; (split; [reflexivity|]);
      [apply handlePointerup_inv, I | exact I].
  - eexists. split; [reflexivity|]. apply handleDoubleClick_inv, I.
  - eexists. split; [reflexivity|].
    unfold handleScroll, applyScaleMultiplier. keep_inv.
  - eexists. split; [reflexivity|]. apply animationFrame_inv, I.
  - eexists. split; [reflexivity|]. apply cutModeClick_inv, I.
  - eexists. split; [reflexivity|]. unfold selectionToggleClick. keep_inv.
  - eexists. split; [reflexivity|]. unfold snapChange. keep_inv.
  - eexists. split; [reflexivity|]. apply handleKeydown_inv, I.
  - eexists. split; [reflexivity|]. apply loadImageFile_inv, I.
  - eexists. split; [reflexivity|]. apply canvasImage_onload_inv, I.
Qed.

Lemma run_inv (inputs : list Input) (s : State) :
  gesture_inv s -> exists s', run inputs s = Done s' /\ gesture_inv s'.
Proof.
  revert s. induction inputs as [|i rest IH]; intros s I; cbn [run].
  - eexists. split; [reflexivity | exact I].
  - destruct (react_inv i s I) as (s1 & R & I1). rewrite R. cbn [and_then].
    apply IH, I1.
Qed.

End Machine.

Section Session.

Context `{AreaModule}.

(** X1.  A move gesture always has its grab point.  Along every sequence
    of the events of the machine ([Input]: pointer, wheel, double-click
    and keyboard events, the cut-mode, snap and selection controls,
    animation frames and image loads), started from the initial values
    of the gesture variables, no handler throws, [eventToEnable] is
    "move" only while [pointerPosition] is set, and so a pointer-move
    handled in the state reached returns: [moveArea] and [updatePoint]
    never read a property of a null grab point.  The click handler of
    the crop button and the resize handler of the window are not events
    of the machine, and nothing is stated about them. *)
Theorem move_has_grab_point :
  forall (inputs : list Input) (s : State),
    fresh s ->
    exists s',
      run inputs s = Done s'
      /\ (eventToEnable s' = GMove -> pointerPosition s' <> None)
      /\ forall event : PointerEvent,
           exists s2, handlePointermove event s' = Done s2.
Proof.
  intros inputs s Fr.
  destruct (run_inv inputs s (fresh_gesture_inv s Fr)) as (s' & R & I).
  exists s'. split; [exact R|]. split; [apply I|].
  intros event. destruct (handlePointermove_inv event s' I) as (s2 & P & _).
  exists s2. exact P.
Qed.

(** X2.  The gesture listeners on the window are registered exactly while
    a gesture is active, both or none.  So in any state the session can
    reach, with no gesture active, moving or releasing the pointer is not
    handled at all. *)
Theorem listeners_follow_gesture :
  forall (inputs : list Input) (s s' : State),
    fresh s ->
    run inputs s = Done s' ->
    (moveListener s' = true <-> eventToEnable s' <> GNone)
    /\ upListener s' = moveListener s'
    /\ (eventToEnable s' = GNone ->
        forall event : PointerEvent,
          react (PointerMove event) s' = Done s'
          /\ react PointerUp s' = Done s').
Proof.
  intros inputs s s' Fr R.
  destruct (run_inv inputs s (fresh_gesture_inv s Fr)) as (s1 & R1 & I).
  rewrite R in R1. injection R1 as <-.
  destruct I as (_ & M & U & _).
  split; [exact M|]. split; [exact U|].
  intros G event. cbn [react]. rewrite U.
  destruct (moveListener s'); [|split; reflexivity].
  exfalso. apply M; [reflexivity | exact G].
Qed.

(** X3.  The in-flight flag of the pointer-move handler is set exactly
    while its frame callback is queued, so it cannot stay stuck: in any
    state the session can reach, the next animation frame clears it, and
    a pointer-move of an active gesture that follows is handed to the
    mutator. *)
Theorem in_flight_flag_released :
  forall (inputs : list Input) (s s' : State),
    fresh s ->
    run inputs s = Done s' ->
    (handlingMove s' = true <-> In FrameMoveDone (rafQueue s'))
    /\ handlingMove (animationFrame s') = false
    /\ (eventToEnable s' <> GNone ->
        forall event : PointerEvent,
        exists s2,
          react (PointerMove event) (animationFrame s') = Done s2
          /\ log s2 = log (animationFrame s')
                      ++ mutator_call (eventToEnable s')
                           (clamp (clientX event)) (clamp (clientY event))).
Proof.
  intros inputs s s' Fr R.
  destruct (run_inv inputs s (fresh_gesture_inv s Fr)) as (s1 & R1 & I).
  rewrite R in R1. injection R1 as <-.
  assert (Ia := animationFrame_inv s' I).
  destruct I as (_ & M & _ & F).
  split; [exact F|]. split; [apply animationFrame_flag, F|].
  intros G event.
  destruct (animationFrame_fields s') as (A & _ & C & _).
  destruct (handlePointermove_inv event (animationFrame s') Ia) as (s2 & P & _).
  exists s2. cbn [react]. rewrite C.
  destruct (moveListener s') eqn:L;
    [|exfalso; destruct M as [_ M]; specialize (M G); discriminate].
  split; [exact P|].
  assert (E : log (final_state (handlePointermove event (animationFrame s')))
              = log s2) by (rewrite P; reflexivity).
  rewrite <- E. unfold handlePointermove.
  rewrite (animationFrame_flag s' F).
  rewrite final_state_and_then_log by reflexivity.
  rewrite dispatch_log. state_simpl. rewrite A. reflexivity.
Qed.

End Session.

Lemma sample_state_fresh : fresh sample_state.
Proof. repeat split. Qed.

Lemma move_has_grab_point_witness :
  let s' := final_state
              (@run sample_area_module
                 [Keydown "a" true; PointerDown (mkPointerEvent 1 60 40 false true)]
                 sample_state) in
  eventToEnable s' = GMove
  /\ pointerPosition s' <> None
  /\ exists s2, handlePointermove (pointer_at 80 90) s' = Done s2.
Proof.
  intros s'.
  assert (R' : @run sample_area_module
                 [Keydown "a" true; PointerDown (mkPointerEvent 1 60 40 false true)]
                 sample_state = Done s')
    by (vm_compute; reflexivity).
  destruct (@move_has_grab_point sample_area_module
              [Keydown "a" true; PointerDown (mkPointerEvent 1 60 40 false true)]
              sample_state sample_state_fresh) as (s1 & R & G & M).
  rewrite R' in R. injection R as E. rewrite <- E in G, M.
  assert (Gm : eventToEnable s' = GMove) by (vm_compute; reflexivity).
  split; [exact Gm|]. split; [exact (G Gm) | exact (M (pointer_at 80 90))].
Defined.

Lemma listeners_follow_gesture_witness :
  let s' := final_state
              (@run sample_area_module
                 [PointerDown (pointer_at 10 10); PointerMove (pointer_at 50 60);
                  Frame; PointerUp] sample_state) in
  upListener s' = moveListener s'
  /\ @react sample_area_module (PointerMove (pointer_at 70 80)) s' = Done s'.
Proof.
  intros s'.
  assert (R : @run sample_area_module
                [PointerDown (pointer_at 10 10); PointerMove (pointer_at 50 60);
                 Frame; PointerUp] sample_state = Done s')
    by (vm_compute; reflexivity).
  destruct (@listeners_follow_gesture sample_area_module _ _ _
              sample_state_fresh R) as (_ & U & Idle).
  split; [exact U|].
  assert (E : eventToEnable s' = GNone) by (vm_compute; reflexivity).
  exact (proj1 (Idle E (pointer_at 70 80))).
Defined.

Lemma in_flight_flag_released_witness :
  let s' := final_state
              (@run sample_area_module
                 [PointerDown (pointer_at 10 10); PointerMove (pointer_at 50 60)]
                 sample_state) in
  handlingMove (animationFrame s') = false
  /\ exists s2,
       @react sample_area_module (PointerMove (pointer_at 70 80))
         (animationFrame s') = Done s2
       /\ log s2 = log (animationFrame s')
                   ++ mutator_call (eventToEnable s') (clamp 70) (clamp 80).
Proof.
  intros s'.
  assert (R : @run sample_area_module
                [PointerDown (pointer_at 10 10); PointerMove (pointer_at 50 60)]
                sample_state = Done s')
    by (vm_compute; reflexivity).
  destruct (@in_flight_flag_released sample_area_module _ _ _
              sample_state_fresh R) as (_ & Fl & Nx).
  split; [exact Fl|].
  apply (Nx ltac:(vm_compute; discriminate) (pointer_at 70 80)).
Defined.

(** ** Whole gestures *)

Section Gestures.

Context `{AreaModule}.

(** What a pointer-down that starts a fresh selection does. *)
Lemma handlePointerdown_select (event : PointerEvent) (s : State) :
  which event = 1%Z -> panelVisible s = false -> cutModeEnabled s = false ->
  eventToEnable (handlePointerdown event s) = GSelect ->
  let s1 := handlePointerdown event s in
  area s1 = mkArea (clientX event) (clientY event) 0 0
  /\ handlingMove s1 = handlingMove s
  /\ keepMask s1 = areaDrawn (area s)
  /\ cropBtnVisible s1 = false
  /\ log s1 = log s.
Proof.
  intros W P C. unfold handlePointerdown.
  apply Z.eqb_eq in W. unfold isPanelVisible. rewrite W, P, C. cbn [negb orb].
  unfold setDirection, isInsideArea. state_simpl.
  destruct (shiftKey event || selectionDisabled s); state_simpl;
    [discriminate|].
  destruct ((ctrlKey event || isMobile s) && areaDrawn (area s)
            && inside_area (area s) (clientX event) (clientY event));
    state_simpl; [discriminate|].
  destruct (nonempty (detect_direction (area s) (clientX event) (clientY event))
            && areaDrawn (area s));
    state_simpl; [discriminate|].
  intros _. repeat split.
Qed.

(** X4.  A selection gesture: after a pointer-down that starts a fresh
    selection, a pointer-move leaves the Area anchored at the pointer-down
    point and reaching to the clamped pointer position, so width and
    height are negative when the pointer is dragged backwards. *)
Theorem select_gesture :
  forall (down move : PointerEvent) (s : State),
    which down = 1%Z -> panelVisible s = false -> cutModeEnabled s = false ->
    eventToEnable (handlePointerdown down s) = GSelect ->
    handlingMove s = false ->
    exists s2,
      handlePointermove move (handlePointerdown down s) = Done s2
      /\ area s2 = mkArea (clientX down) (clientY down)
                     (clamp (clientX move) - clientX down)
                     (clamp (clientY move) - clientY down).
Proof.
  intros down move s W P C G Hm.
  destruct (handlePointerdown_select down s W P C G) as (A & F & _).
  unfold handlePointermove. rewrite F, Hm. state_simpl. rewrite G.
  unfold dispatch, selectArea. state_simpl.
  eexists. split; [reflexivity|]. state_simpl. rewrite A. reflexivity.
Qed.

(** X6.  A click that starts a fresh selection and is released without a
    move discards the selection: the Area is empty at the click point,
    the mask and the crop button are gone, the image is redrawn without
    overlay and the crop panel is told to reset its inputs. *)
Theorem click_discards_selection :
  forall (down : PointerEvent) (s : State),
    which down = 1%Z -> panelVisible s = false -> cutModeEnabled s = false ->
    eventToEnable (handlePointerdown down s) = GSelect ->
    let s2 := handlePointerup (handlePointerdown down s) in
    area s2 = mkArea (clientX down) (clientY down) 0 0
    /\ eventToEnable s2 = GNone
    /\ keepMask s2 = false
    /\ cropBtnVisible s2 = false
    /\ log s2 = log s ++ [DrawImage; ResetCropPanelInputs].
Proof.
  intros down s W P C G.
  destruct (handlePointerdown_select down s W P C G) as (A & _ & _ & B & L).
  cbv zeta. unfold handlePointerup. state_simpl. rewrite A.
  change (areaDrawn (mkArea (clientX down) (clientY down) 0 0)) with false.
  state_simpl. rewrite A, B, L, <- app_assoc. repeat split.
Qed.


End Gestures.

Lemma select_gesture_witness :
  exists s2,
    handlePointermove (pointer_at 40 40)
      (@handlePointerdown sample_area_module (pointer_at 100 100) sample_state)
    = Done s2
    /\ area s2 = mkArea 100 100 (clamp 40 - 100) (clamp 40 - 100).
Proof.
  apply (@select_gesture sample_area_module (pointer_at 100 100)
           (pointer_at 40 40) sample_state); reflexivity.
Defined.

Lemma click_discards_selection_witness :
  let s := set_keepMask true (set_area (mkArea 10 20 100 50) sample_state) in
  let s2 := handlePointerup
              (@handlePointerdown sample_area_module (pointer_at 300 200) s) in
  area s2 = mkArea 300 200 0 0
  /\ eventToEnable s2 = GNone
  /\ keepMask s2 = false
  /\ cropBtnVisible s2 = false
  /\ log s2 = log s ++ [DrawImage; ResetCropPanelInputs].
Proof.
  intros s.
  apply (@click_discards_selection sample_area_module (pointer_at 300 200) s);
    reflexivity.
Defined.


(** ** The mutators depend on the pointer position only *)








(** ** Selecting the whole image *)




(** ** Crop extraction in general *)

Lemma in_bounds_spec (w h i j : Z) :
  Ctx.in_bounds w h i j = true <-> (0 <= i < w /\ 0 <= j < h)%Z.
Proof.
  unfold Ctx.in_bounds. rewrite !andb_true_iff, !Z.leb_le, !Z.ltb_lt. lia.
Qed.

Lemma compose_on_transparent `{Canvas2D} (src : option Pixel) :
  Ctx.compose src transparent
  = match src with Some p => p | None => transparent end.
Proof. destruct src; reflexivity. Qed.

Lemma is_integer_comp (q q' : Q) :
  q == q' -> Ctx.is_integer q = Ctx.is_integer q'.
Proof.
  intros E. unfold Ctx.is_integer. rewrite (Qfloor_comp _ _ E).
  destruct (Qeq_bool q' (inject_Z (Qfloor q'))) eqn:B.
  - apply Qeq_bool_iff. apply Qeq_bool_iff in B. rewrite E. exact B.
  - destruct (Qeq_bool q (inject_Z (Qfloor q'))) eqn:B'; [|reflexivity].
    apply Qeq_bool_iff in B'. rewrite E in B'. apply Qeq_bool_iff in B'.
    congruence.
Qed.

Lemma truthy_comp (q q' : Q) : q == q' -> JS.truthy q = JS.truthy q'.
Proof.
  intros E. destruct (JS.truthy q') eqn:T.
  - apply truthy_spec. apply truthy_spec in T. rewrite E. exact T.
  - apply truthy_false. apply truthy_false in T. rewrite E. exact T.
Qed.

Section Raster.

Context `{Canvas2D}.

(** The offscreen canvas as [getCroppedCanvas] prepares it, before the
    image is drawn. *)
Lemma drawImage_offscreen (image : Image) (s : State) (c : Ctx.t) (X Y : Z) :
  (forall i j, s_px (Ctx.canvas c) i j = transparent) ->
  rotation s == 0 ->
  Ctx.unit_flip (flip s) = true ->
  Ctx.is_integer (Ctx.tx c) = true ->
  Ctx.is_integer (Ctx.ty c) = true ->
  s_px (Ctx.canvas (drawImage c image s)) X Y
  = placed_pixel image (flip s) (Qfloor (Ctx.tx c)) (Qfloor (Ctx.ty c)) X Y.
Proof.
  intros Blank R F Ix Iy.
  unfold drawImage, clearCanvas, Ctx.paint, Ctx.clear_rect, getRotation, getFlip.
  cbn [Ctx.canvas Ctx.tx Ctx.ty s_px]. rewrite Blank.
  assert (T : (if Ctx.in_bounds (canvasWidth s) (canvasHeight s) X Y
               then transparent else transparent) = transparent)
    by (destruct (Ctx.in_bounds _ _ _ _); reflexivity).
  rewrite T, compose_on_transparent.
  unfold Ctx.image_contribution, placed_pixel.
  rewrite (truthy_comp _ _ R). change (JS.truthy 0) with false.
  rewrite Ix, Iy, F. cbn [orb andb negb].
  destruct (Ctx.in_bounds (img_width image) (img_height image) _ _); reflexivity.
Qed.

(** Whatever the platform paints, the raster is the block of the
    offscreen canvas at the converted Area. *)
Lemma getCroppedCanvas_block (image : Image) (s : State) :
  let r := transformedArea s in
  let scale := t_a (transform s) in
  let c :=
    Ctx.translate (t_e (transform s) / scale) (t_f (transform s) / scale)
      (Ctx.set_height (JS.round (inject_Z (canvasHeight s) / scale))
         (Ctx.set_width (JS.round (inject_Z (canvasWidth s) / scale))
            Ctx.create)) in
  r_width r <> 0%Z -> r_height r <> 0%Z ->
  exists raster : Surface,
    getCroppedCanvas image s = inr raster
    /\ s_width raster = Z.abs (r_width r)
    /\ s_height raster = Z.abs (r_height r)
    /\ forall i j : Z,
         (0 <= i < Z.abs (r_width r))%Z -> (0 <= j < Z.abs (r_height r))%Z ->
         s_px raster i j
         = Ctx.pixel_at (Ctx.canvas (drawImage c image s))
             (low_corner_x r + i) (low_corner_y r + j).
Proof.
  intros r scale c W Hh.
  unfold getCroppedCanvas, getImageData, Ctx.getImageData, getTransform.
  fold r scale c.
  assert (E : ((r_width r =? 0) || (r_height r =? 0))%Z = false).
  { apply orb_false_iff. rewrite !Z.eqb_neq. split; assumption. }
  rewrite E. eexists. split; [reflexivity|].
  cbn [Ctx.putImageData Ctx.set_height Ctx.set_width Ctx.canvas Ctx.blank
       s_width s_height s_px].
  rewrite !dimension_nonneg by apply Z.abs_nonneg.
  split; [reflexivity|]. split; [reflexivity|].
  intros i j Hi Hj. rewrite !Z.sub_0_r.
  assert (B : Ctx.in_bounds (Z.abs (r_width r)) (Z.abs (r_height r)) i j = true)
    by (apply in_bounds_spec; split; assumption).
  rewrite B. reflexivity.
Qed.

Lemma offscreen_canvas (s : State) :
  let scale := t_a (transform s) in
  let c :=
    Ctx.translate (t_e (transform s) / scale) (t_f (transform s) / scale)
      (Ctx.set_height (JS.round (inject_Z (canvasHeight s) / scale))
         (Ctx.set_width (JS.round (inject_Z (canvasWidth s) / scale))
            Ctx.create)) in
  (forall i j, s_px (Ctx.canvas c) i j = transparent)
  /\ Ctx.tx c == t_e (transform s) / scale
  /\ Ctx.ty c == t_f (transform s) / scale
  /\ forall image, s_width (Ctx.canvas (drawImage c image s)) = offscreen_width s
                   /\ s_height (Ctx.canvas (drawImage c image s)) = offscreen_height s.
Proof.
  cbv zeta. cbn [Ctx.translate Ctx.set_height Ctx.set_width Ctx.canvas Ctx.tx
                 Ctx.ty Ctx.blank s_px].
  split; [reflexivity|]. split; [ring|]. split; [ring|].
  intros image. split; reflexivity.
Qed.

(** X9.  Without rotation, with flips of 1 or -1 and with the translation
    of the Transform a whole number of image pixels, the raster of a crop
    is the block of the source image that the Area covers: pixel (i, j)
    of the raster is the pixel of the (possibly mirrored) image placed at
    (e / scale, f / scale), taken at the Area's low corner plus (i, j);
    it is transparent where the Area leaves the image or the offscreen
    canvas.  This covers every scale and Areas of negative width or
    height. *)
Theorem getCroppedCanvas_pixels :
  forall (image : Image) (s : State),
    let r := transformedArea s in
    let scale := t_a (transform s) in
    rotation s == 0 ->
    Ctx.unit_flip (flip s) = true ->
    Ctx.is_integer (t_e (transform s) / scale) = true ->
    Ctx.is_integer (t_f (transform s) / scale) = true ->
    r_width r <> 0%Z -> r_height r <> 0%Z ->
    exists raster : Surface,
      getCroppedCanvas image s = inr raster
      /\ s_width raster = Z.abs (r_width r)
      /\ s_height raster = Z.abs (r_height r)
      /\ forall i j : Z,
           (0 <= i < Z.abs (r_width r))%Z -> (0 <= j < Z.abs (r_height r))%Z ->
           let X := (low_corner_x r + i)%Z in
           let Y := (low_corner_y r + j)%Z in
           s_px raster i j
           = if Ctx.in_bounds (offscreen_width s) (offscreen_height s) X Y
             then placed_pixel image (flip s)
                    (Qfloor (t_e (transform s) / scale))
                    (Qfloor (t_f (transform s) / scale)) X Y
             else transparent.
Proof.
  intros image s r scale R F Ix Iy W Hh.
  destruct (getCroppedCanvas_block image s W Hh) as (raster & G & Dw & Dh & Px).
  exists raster. repeat (split; [assumption|]).
  intros i j Hi Hj X Y. rewrite (Px i j Hi Hj). fold r scale X Y.
  destruct (offscreen_canvas s) as (Blank & Tx & Ty & Dims).
  destruct (Dims image) as (Ow & Oh).
  unfold Ctx.pixel_at. fold scale in Ow, Oh, Blank, Tx, Ty. rewrite Ow, Oh.
  destruct (Ctx.in_bounds (offscreen_width s) (offscreen_height s) X Y);
    [|reflexivity].
  rewrite drawImage_offscreen; try assumption.
  - rewrite (Qfloor_comp _ _ Tx), (Qfloor_comp _ _ Ty). reflexivity.
  - rewrite (is_integer_comp _ _ Tx). exact Ix.
  - rewrite (is_integer_comp _ _ Ty). exact Iy.
Qed.

End Raster.

Lemma getCroppedCanvas_pixels_witness :
  let s := set_flip (mkFlip (-1) 1)
             (set_transform (mkTransform 2 0 0 2 20 10)
                (set_area (mkArea 100 50 (-40) (-20)) sample_state)) in
  exists raster : Surface,
    @getCroppedCanvas sample_canvas sample_image s = inr raster
    /\ s_width raster = 20%Z /\ s_height raster = 10%Z
    /\ s_px raster 0 0 = img_px sample_image (400 - 1 - 20) 10.
Proof.
  intros s.
  destruct (@getCroppedCanvas_pixels sample_canvas sample_image s)
    as (raster & G & Dw & Dh & Px);
    try reflexivity; try (vm_compute; discriminate).
  exists raster. split; [exact G|]. split; [exact Dw|]. split; [exact Dh|].
  rewrite (Px 0%Z 0%Z); [reflexivity | vm_compute; split; [discriminate | reflexivity]
                        | vm_compute; split; [discriminate | reflexivity]].
Defined.

Lemma Qfloor_half (z : Z) : Qfloor (inject_Z z + (1 # 2)) = z.
Proof.
  unfold Qfloor, Qplus, inject_Z. cbn [Qnum Qden].
  change (Z.pos (1 * 2)) with 2%Z. rewrite Z.mul_1_l.
  symmetry. apply (Z.div_unique _ 2 z 1); lia.
Qed.

(** [Math.round] of a whole number is that number. *)
Lemma round_integer (q : Q) : Ctx.is_integer q = true -> JS.round q = Qfloor q.
Proof.
  intros I. apply Qeq_bool_iff in I. unfold JS.round.
  assert (E : q + (1 # 2) == inject_Z (Qfloor q) + (1 # 2))
    by (rewrite <- I; reflexivity).
  rewrite (Qfloor_comp _ _ E). apply Qfloor_half.
Qed.

Lemma round_scaled (z : Z) (k : Q) : ~ k == 0 -> JS.round (inject_Z z * k / k) = z.
Proof.
  intros N. unfold JS.round.
  assert (E : inject_Z z * k / k + (1 # 2) == inject_Z z + (1 # 2))
    by (field; exact N).
  rewrite (Qfloor_comp _ _ E). apply Qfloor_half.
Qed.

Section WholeImage.

Context `{Canvas2D}.

(** X10.  Cropping right after ctrl+a gives back the image: when the
    image is shown unrotated and unmirrored at a positive scale, at a
    whole number of image pixels from the origin, and lies inside the
    offscreen canvas, the raster has the size of the image and the same
    pixel at every position. *)
Theorem select_all_crop_is_image :
  forall (image : Image) (s : State),
    let scale := t_a (transform s) in
    let ox := Qfloor (t_e (transform s) / scale) in
    let oy := Qfloor (t_f (transform s) / scale) in
    0 < scale ->
    rotation s == 0 ->
    flip s = mkFlip 1 1 ->
    Ctx.is_integer (t_e (transform s) / scale) = true ->
    Ctx.is_integer (t_f (transform s) / scale) = true ->
    img_width image = img_width (canvasImage s) ->
    img_height image = img_height (canvasImage s) ->
    (0 < img_width image)%Z -> (0 < img_height image)%Z ->
    (0 <= ox)%Z -> (0 <= oy)%Z ->
    (ox + img_width image <= offscreen_width s)%Z ->
    (oy + img_height image <= offscreen_height s)%Z ->
    exists raster : Surface,
      getCroppedCanvas image (handleKeydown "a" true s) = inr raster
      /\ s_width raster = img_width image
      /\ s_height raster = img_height image
      /\ forall i j : Z,
           (0 <= i < img_width image)%Z -> (0 <= j < img_height image)%Z ->
           s_px raster i j = img_px image i j.
Proof.
  intros image s scale ox oy Ps R F Ix Iy Ew Eh Pw Ph Ox Oy Fw Fh.
  set (s1 := handleKeydown "a" true s).
  assert (T : transformedArea s1 = mkIntRect ox oy (img_width image) (img_height image)).
  { unfold transformedArea, s1, handleKeydown. cbn [String.eqb Ascii.eqb Bool.eqb andb].
    state_simpl. fold scale.
    rewrite (round_integer _ Ix), (round_integer _ Iy).
    rewrite !round_scaled by lra. rewrite Ew, Eh. reflexivity. }
  destruct (getCroppedCanvas_block image s1) as (raster & G & Dw & Dh & Px);
    try (rewrite T; cbn [r_width r_height]; lia).
  rewrite T in Dw, Dh, Px. cbn [r_width r_height] in Dw, Dh, Px.
  rewrite (Z.abs_eq (img_width image)) in Dw, Px by lia.
  rewrite (Z.abs_eq (img_height image)) in Dh, Px by lia.
  exists raster. split; [exact G|]. split; [exact Dw|]. split; [exact Dh|].
  intros i j Hi Hj. rewrite (Px i j Hi Hj).
  unfold low_corner_x, low_corner_y. cbn [r_x r_y r_width r_height].
  destruct (Z.ltb_spec (img_width image) 0) as [?|_]; [lia|].
  destruct (Z.ltb_spec (img_height image) 0) as [?|_]; [lia|].
  destruct (offscreen_canvas s1) as (Blank & Tx & Ty & Dims).
  destruct (Dims image) as (Ow & Oh).
  unfold Ctx.pixel_at. rewrite Ow, Oh.
  assert (B : Ctx.in_bounds (offscreen_width s1) (offscreen_height s1)
                (ox + i) (oy + j) = true).
  { apply in_bounds_spec.
    change (offscreen_width s1) with (offscreen_width s).
    change (offscreen_height s1) with (offscreen_height s). lia. }
  rewrite B.
  assert (F1 : Ctx.unit_flip (flip s1) = true)
    by (change (flip s1) with (flip s); rewrite F; reflexivity).
  pose proof (eq_trans (is_integer_comp _ _ Tx) Ix) as I1.
  pose proof (eq_trans (is_integer_comp _ _ Ty) Iy) as I2.
  rewrite (drawImage_offscreen image s1 _ _ _ Blank R F1 I1 I2).
  change (flip s1) with (flip s). rewrite F.
  rewrite (Qfloor_comp _ _ Tx), (Qfloor_comp _ _ Ty).
  change (transform s1) with (transform s). fold scale ox oy.
  unfold placed_pixel. cbn [flipH flipV Z.eqb].
  replace (ox + i - ox)%Z with i by lia.
  replace (oy + j - oy)%Z with j by lia.
  assert (Bi : Ctx.in_bounds (img_width image) (img_height image) i j = true)
    by (apply in_bounds_spec; split; assumption).
  rewrite Bi. reflexivity.
Qed.

End WholeImage.

Lemma select_all_crop_is_image_witness :
  let s := set_transform (mkTransform (1 # 2) 0 0 (1 # 2) 100 75) sample_state in
  exists raster : Surface,
    @getCroppedCanvas sample_canvas sample_image (handleKeydown "a" true s)
    = inr raster
    /\ s_width raster = 400%Z /\ s_height raster = 300%Z
    /\ forall i j : Z,
         (0 <= i < 400)%Z -> (0 <= j < 300)%Z ->
         s_px raster i j = img_px sample_image i j.
Proof.
  intros s.
  apply (@select_all_crop_is_image sample_canvas sample_image s);
    try reflexivity; vm_compute; discriminate.
Defined.

(** ** The overlay of the visible canvas *)

Lemma in_bounds_no_width (h i j : Z) : Ctx.in_bounds 0 h i j = false.
Proof.
  destruct (Ctx.in_bounds 0 h i j) eqn:B; [|reflexivity].
  apply in_bounds_spec in B. lia.
Qed.

Lemma in_bounds_no_height (w i j : Z) : Ctx.in_bounds w 0 i j = false.
Proof.
  destruct (Ctx.in_bounds w 0 i j) eqn:B; [|reflexivity].
  apply in_bounds_spec in B. lia.
Qed.

Section Overlay.

Context `{Canvas2D} `{Stroke2D}.

(** X11.  Drawing the overlay never throws: the pixels under the Area are
    read only when its rounded width and height are both non-zero.  It
    keeps the size of the canvas and the transform of the context.
    Leaving aside the pixels the outline paints, every pixel of the
    canvas under the Area -- taken by coordinate, so also for a negative
    width or height -- comes out as it was, every other pixel within the
    viewport is composited with the mask colour when the Area has a
    non-zero rounded extent or the mask is kept, and the rest is
    unchanged. *)
Theorem drawArea_highlights :
  forall (ctx : Ctx.t) (s : State),
    let r := roundedArea s in
    let masked := negb (r_width r =? 0)%Z || negb (r_height r =? 0)%Z || keepMask s in
    exists ctx' : Ctx.t,
      drawArea ctx s = inr ctx'
      /\ Ctx.tx ctx' = Ctx.tx ctx /\ Ctx.ty ctx' = Ctx.ty ctx
      /\ s_width (Ctx.canvas ctx') = s_width (Ctx.canvas ctx)
      /\ s_height (Ctx.canvas ctx') = s_height (Ctx.canvas ctx)
      /\ forall i j : Z,
           Ctx.in_bounds (s_width (Ctx.canvas ctx)) (s_height (Ctx.canvas ctx)) i j
           = true ->
           stroke_rect (area_x (area s) + (1 # 2)) (area_y (area s) + (1 # 2))
             (r_width r) (r_height r) i j = None ->
           s_px (Ctx.canvas ctx') i j
           = if covers r i j then s_px (Ctx.canvas ctx) i j
             else if masked && Ctx.in_bounds (canvasWidth s) (canvasHeight s) i j
                  then Ctx.compose (Some mask_colour) (s_px (Ctx.canvas ctx) i j)
                  else s_px (Ctx.canvas ctx) i j.
Proof.
  intros ctx s r masked. subst masked. unfold drawArea, getArea.
  change (JS.round (area_width (area s))) with (r_width r).
  change (JS.round (area_height (area s))) with (r_height r).
  change (JS.round (area_x (area s))) with (r_x r).
  change (JS.round (area_y (area s))) with (r_y r).
  unfold Ctx.getImageData, covers, low_corner_x, low_corner_y.
  destruct (r_width r =? 0)%Z eqn:Zw; destruct (r_height r =? 0)%Z eqn:Zh;
    destruct (keepMask s) eqn:K; cbn [negb andb orb];
    (eexists; split; [reflexivity|]; do 4 (split; [reflexivity|]);
     intros i j B St;
     cbn [Ctx.canvas Ctx.paint Ctx.putImageData addMask s_px s_width s_height];
     rewrite St; cbn [Ctx.compose];
     try (apply Z.eqb_eq in Zw; rewrite Zw; cbn [Z.abs];
          rewrite in_bounds_no_width);
     try (apply Z.eqb_eq in Zh; rewrite Zh; cbn [Z.abs];
          rewrite in_bounds_no_height);
     try (destruct (Ctx.in_bounds (canvasWidth s) (canvasHeight s) i j);
          reflexivity)).
  - set (x0 := if (r_width r <? 0)%Z then (r_x r + r_width r)%Z else r_x r).
    set (y0 := if (r_height r <? 0)%Z then (r_y r + r_height r)%Z else r_y r).
    destruct (Ctx.in_bounds (Z.abs (r_width r)) (Z.abs (r_height r))
                (i - x0) (j - y0)).
    + unfold Ctx.pixel_at.
      replace (x0 + (i - x0))%Z with i by lia.
      replace (y0 + (j - y0))%Z with j by lia.
      rewrite B. reflexivity.
    + destruct (Ctx.in_bounds (canvasWidth s) (canvasHeight s) i j); reflexivity.
  - set (x0 := if (r_width r <? 0)%Z then (r_x r + r_width r)%Z else r_x r).
    set (y0 := if (r_height r <? 0)%Z then (r_y r + r_height r)%Z else r_y r).
    destruct (Ctx.in_bounds (Z.abs (r_width r)) (Z.abs (r_height r))
                (i - x0) (j - y0)).
    + unfold Ctx.pixel_at.
      replace (x0 + (i - x0))%Z with i by lia.
      replace (y0 + (j - y0))%Z with j by lia.
      rewrite B. reflexivity.
    + destruct (Ctx.in_bounds (canvasWidth s) (canvasHeight s) i j); reflexivity.
Qed.

End Overlay.

Lemma drawArea_highlights_witness :
  let s := set_area (mkArea 100 100 (-60) (-60)) sample_state in
  let ctx := Ctx.mk (mkSurface 800 600 (fun i j => (i + j + 1)%Z)) 0 0 in
  exists ctx' : Ctx.t,
    @drawArea sample_canvas sample_stroke ctx s = inr ctx'
    /\ s_px (Ctx.canvas ctx') 50 60 = s_px (Ctx.canvas ctx) 50 60
    /\ s_px (Ctx.canvas ctx') 10 20
       = @Ctx.compose sample_canvas (Some mask_colour) (s_px (Ctx.canvas ctx) 10 20).
Proof.
  intros s ctx.
  destruct (@drawArea_highlights sample_canvas sample_stroke ctx s)
    as (ctx' & D & _ & _ & _ & _ & Px).
  exists ctx'. split; [exact D|]. split.
  - rewrite (Px 50%Z 60%Z); reflexivity.
  - rewrite (Px 10%Z 20%Z); reflexivity.
Defined.

(** * The list of uploads *)

Lemma mark_length (k : nat) (v : bool) (items : list ListItem) :
  List.length (mark k v items) = List.length items.
Proof.
  revert k. induction items as [|item rest IH]; intros [|k]; cbn [mark List.length];
    try reflexivity. rewrite IH. reflexivity.
Qed.

(** An item after marking: the same data, the flag replaced at the
    position marked. *)
Lemma mark_nth (k : nat) (v : bool) (items : list ListItem) (j : nat) :
  nth_error (mark k v items) j
  = match nth_error items j with
    | Some item =>
        Some (if Nat.eqb j k
              then mkListItem (item_index item) (item_src item) v
              else item)
    | None => None
    end.
Proof.
  revert k j. induction items as [|item rest IH]; intros [|k] [|j];
    cbn [mark nth_error Nat.eqb]; try reflexivity.
  - destruct (nth_error rest j); reflexivity.
  - apply IH.
Qed.

Lemma at_index_nat {A : Type} (l : list A) (k : nat) :
  at_index l (Z.of_nat k) = nth_error l k.
Proof.
  unfold at_index. destruct (Z.ltb_spec (Z.of_nat k) 0); [lia|].
  rewrite Nat2Z.id. reflexivity.
Qed.

Lemma at_index_outside {A : Type} (l : list A) (i : Z) :
  (i < 0 \/ Z.of_nat (List.length l) <= i)%Z -> at_index l i = None.
Proof.
  intros O. unfold at_index. destruct (Z.ltb_spec i 0); [reflexivity|].
  apply nth_error_None. lia.
Qed.

Lemma nth_error_nil_some {A : Type} (k : nat) (x : A) :
  nth_error (@nil A) k = Some x -> False.
Proof. destruct k; discriminate. Qed.

Lemma initial_app_inv (s : State) (w h : Z) : uploads_inv (initial_app s w h).
Proof.
  unfold uploads_inv, list_inv, initial_app.
  cbn [listItems images activeListItem activeImageIndex introElement
       canvasCount canvasListeners List.length].
  split.
  { split; [reflexivity|].
    split; [intros k item E; destruct (nth_error_nil_some _ _ E)|].
    split; [intros k item E; destruct (nth_error_nil_some _ _ E)|].
    intros k E; discriminate E. }
  split; [reflexivity|].
  split; [split; reflexivity|].
  split; [discriminate | reflexivity].
Qed.

Ltac app_simpl :=
  cbn [app_then app_final setDocumentTitle indicateImageUpload
       resetCanvasDimensions initCanvasElement renderUploadedImage
       with_canvasJs with_canvasCount with_introElement with_canvasListeners with_images
       with_activeImageIndex with_activeListItem with_listItems with_preview with_documentTitle
       with_pings with_minted with_reads
       canvasJs canvasCount introElement canvasListeners windowWidth windowHeight
       images activeImageIndex activeListItem listItems preview documentTitle
       pings minted reads] in *.

(** Highlighting an item of the list: it becomes the only one marked. *)
Lemma highlightImage_item (k : nat) (a : App) :
  (forall (j : nat) (item : ListItem),
      nth_error (listItems a) j = Some item ->
      (item_active item = true <-> activeListItem a = Some j)) ->
  exists a',
    highlightImage (Some k) a = AppDone a'
    /\ activeListItem a' = Some k
    /\ List.length (listItems a') = List.length (listItems a)
    /\ (forall (j : nat) (item' : ListItem),
           nth_error (listItems a') j = Some item' ->
           (item_active item' = true <-> j = k)
           /\ exists item,
                nth_error (listItems a) j = Some item
                /\ item_index item' = item_index item
                /\ item_src item' = item_src item)
    /\ canvasJs a' = canvasJs a /\ canvasCount a' = canvasCount a
    /\ introElement a' = introElement a
    /\ canvasListeners a' = canvasListeners a
    /\ images a' = images a /\ activeImageIndex a' = activeImageIndex a
    /\ reads a' = reads a /\ minted a' = minted a
    /\ preview a' = preview a
    /\ windowWidth a' = windowWidth a /\ windowHeight a' = windowHeight a.
Proof.
  intros Act. unfold highlightImage. eexists. split; [reflexivity|].
  app_simpl. split; [reflexivity|].
  split.
  { destruct (activeListItem a); app_simpl; rewrite !mark_length; reflexivity. }
  split.
  { intros j item' E.
    assert (exists item,
              nth_error (listItems a) j = Some item
              /\ item_index item' = item_index item
              /\ item_src item' = item_src item
              /\ item_active item'
                 = if Nat.eqb j k then true
                   else match activeListItem a with
                        | Some old => if Nat.eqb j old then false else item_active item
                        | None => item_active item
                        end) as (item & E0 & Ei & Es & Ea).
    { destruct (activeListItem a) as [old|]; app_simpl;
        rewrite !mark_nth in E;
        destruct (nth_error (listItems a) j) as [item|]; try discriminate;
        exists item; injection E as <-; (split; [reflexivity|]);
        destruct (Nat.eqb j k); try destruct (Nat.eqb j old);
        repeat split. }
    split; [|exists item; repeat split; assumption].
    rewrite Ea. destruct (Nat.eqb_spec j k) as [->|N].
    - split; reflexivity.
    - assert (Old : item_active item = true -> activeListItem a = Some j)
        by (apply Act; exact E0).
      destruct (activeListItem a) as [old|].
      + destruct (Nat.eqb_spec j old) as [->|N'].
        * split; [discriminate | intros ?; contradiction].
        * split; [intros T; specialize (Old T); congruence
                 | intros ?; contradiction].
      + split; [intros T; specialize (Old T); discriminate
               | intros ?; contradiction]. }
  destruct (activeListItem a); repeat split.
Qed.

Lemma list_inv_ext (a a' : App) :
  listItems a' = listItems a -> images a' = images a ->
  activeListItem a' = activeListItem a ->
  list_inv a -> list_inv a'.
Proof.
  intros L I A. unfold list_inv. rewrite L, I, A. tauto.
Qed.

Lemma highlightImage_list_inv (k : nat) (a : App) :
  list_inv a ->
  (k < List.length (listItems a))%nat ->
  exists a',
    highlightImage (Some k) a = AppDone a'
    /\ list_inv a'
    /\ activeListItem a' = Some k
    /\ canvasJs a' = canvasJs a /\ canvasCount a' = canvasCount a
    /\ introElement a' = introElement a
    /\ canvasListeners a' = canvasListeners a
    /\ images a' = images a /\ activeImageIndex a' = activeImageIndex a
    /\ reads a' = reads a /\ minted a' = minted a
    /\ preview a' = preview a
    /\ windowWidth a' = windowWidth a /\ windowHeight a' = windowHeight a.
Proof.
  intros (Len & Items & Act & Bound) K.
  destruct (highlightImage_item k a Act)
    as (a' & Hh & A' & L' & It' & Rest).
  exists a'. split; [exact Hh|]. split; [|split; [exact A' | exact Rest]].
  destruct Rest as (_ & _ & _ & _ & Im & _).
  unfold list_inv. rewrite L', Im, A'.
  split; [exact Len|]. split; [|split].
  - intros j item' E. destruct (It' j item' E) as (_ & item & E0 & Ei & Es).
    rewrite Ei, Es. apply Items. exact E0.
  - intros j item' E. destruct (It' j item' E) as (Ia & _).
    rewrite Ia. split; [intros ->; reflexivity | intros [= ->]; reflexivity].
  - intros j [= <-]. exact K.
Qed.

Lemma uploads_inv_canvasJs (s : State) (a : App) :
  uploads_inv a -> uploads_inv (with_canvasJs s a).
Proof. intros I. exact I. Qed.

Lemma nth_error_snoc {A : Type} (l : list A) (x : A) (j : nat) (y : A) :
  nth_error (l ++ [x]) j = Some y ->
  ((j < List.length l)%nat /\ nth_error l j = Some y)
  \/ (j = List.length l /\ y = x).
Proof.
  intros E. destruct (Nat.lt_ge_cases j (List.length l)) as [L|G].
  - left. split; [exact L|]. rewrite nth_error_app1 in E by exact L. exact E.
  - right. rewrite nth_error_app2 in E by exact G.
    destruct (j - List.length l)%nat as [|d] eqn:D; cbn in E.
    + split; [lia | congruence].
    + destruct d; discriminate.
Qed.

(** Pushing an image and rendering its thumbnail keeps the list in step
    with the images. *)
Lemma push_list_inv (image : ImageRecord) (a : App) :
  list_inv a ->
  list_inv (renderUploadedImage image (with_images (images a ++ [image]) a)).
Proof.
  intros (Len & Items & Act & Bound). unfold list_inv. app_simpl.
  rewrite !length_app. cbn [List.length].
  split; [lia|]. split; [|split].
  - intros j item E. apply nth_error_snoc in E. destruct E as [[L E]|[-> ->]].
    + destruct (Items j item E) as (Ix & r & Er & Es).
      split; [exact Ix|]. exists r. split; [|exact Es].
      rewrite nth_error_app1 by lia. exact Er.
    + cbn [item_index item_src]. split; [lia|].
      exists image. split; [|reflexivity].
      rewrite nth_error_app2 by lia. rewrite Len, Nat.sub_diag. reflexivity.
  - intros j item E. apply nth_error_snoc in E. destruct E as [[L E]|[-> ->]].
    + apply Act. exact E.
    + cbn [item_active]. split; [discriminate|].
      intros S. apply Bound in S. lia.
  - intros j S. apply Bound in S. lia.
Qed.

Lemma doneReadingImages_inv (a : App) :
  uploads_inv a ->
  activeListItem a = None ->
  images a <> [] ->
  exists (a' : App) (first : ImageRecord),
    doneReadingImages a = AppDone a'
    /\ uploads_inv a'
    /\ hd_error (images a) = Some first
    /\ images a' = images a /\ reads a' = reads a /\ minted a' = minted a
    /\ activeListItem a' = Some O
    /\ canvasCount a = O /\ canvasCount a' = 1%nat
    /\ canvasJs a'
       = loadImageFile (rec_blobUrl first)
           (set_canvasHeight (windowHeight a)
              (set_canvasWidth (windowWidth a) (canvasJs a))).
Proof.
  intros (Li & Ix & Intro & Gone & Quiet) None_active Some_image.
  destruct (images a) as [|first more] eqn:Im; [contradiction|].
  assert (In_ : introElement a = true).
  { destruct (introElement a) eqn:E; [reflexivity|].
    destruct (Gone eq_refl) as (_ & _ & N). contradiction. }
  assert (Count : canvasCount a = O) by (apply Intro; exact In_).
  unfold doneReadingImages. rewrite Im. cbn [hd_error updateImagePreview app_then].
  set (a1 := with_preview (Some first) a).
  assert (L1 : list_inv a1) by (apply (list_inv_ext a); try reflexivity; exact Li).
  assert (First : firstListItem a1 = Some O).
  { unfold firstListItem. destruct Li as (Len & _).
    change (listItems a1) with (listItems a). rewrite Im in Len.
    destruct (listItems a); [discriminate Len | reflexivity]. }
  rewrite First.
  destruct (highlightImage_list_inv O a1 L1) as (a2 & Hh & L2 & A2 & Rest).
  { destruct Li as (Len & _). change (listItems a1) with (listItems a).
    rewrite Len, Im. cbn [List.length]. lia. }
  rewrite Hh. cbn [app_then].
  destruct Rest as (Cj & Cc & Ie & Cl & Im2 & Ai & Rd & Mi & _ & Ww & Wh).
  unfold initCanvas. app_simpl. rewrite Ie.
  change (introElement a1) with (introElement a). rewrite In_.
  eexists. exists first. split; [reflexivity|]. app_simpl.
  split.
  { unfold uploads_inv. app_simpl. split.
    - apply (list_inv_ext a2); try reflexivity. exact L2.
    - rewrite A2, Ai. change (activeImageIndex a1) with (activeImageIndex a).
      rewrite Ix, None_active. split; [reflexivity|].
      split; [split; discriminate|]. split; [|discriminate].
      intros _. rewrite Cc. change (canvasCount a1) with (canvasCount a).
      rewrite Count. repeat split. discriminate. }
  split; [reflexivity|]. split; [rewrite Im2; exact Im|].
  split; [exact Rd|]. split; [exact Mi|]. split; [exact A2|].
  split; [exact Count|]. split; [rewrite Cc; exact (f_equal S Count)|].
  rewrite Cj, Ww, Wh. reflexivity.
Qed.

Lemma uploads_inv_ext (a a' : App) :
  listItems a' = listItems a -> images a' = images a ->
  activeListItem a' = activeListItem a ->
  activeImageIndex a' = activeImageIndex a ->
  introElement a' = introElement a -> canvasCount a' = canvasCount a ->
  canvasListeners a' = canvasListeners a ->
  uploads_inv a -> uploads_inv a'.
Proof.
  intros L I A X N C K (Li & Rest). unfold uploads_inv.
  rewrite A, X, N, C, K. split; [|exact Rest].
  apply (list_inv_ext a); assumption.
Qed.

(** After a push the highlighted item and the canvas are as before. *)
Lemma push_inv (image : ImageRecord) (a : App) :
  uploads_inv a ->
  uploads_inv (renderUploadedImage image (with_images (images a ++ [image]) a)).
Proof.
  intros (Li & Rest). split; [apply push_list_inv; exact Li | exact Rest].
Qed.

Section UploadsInvariant.

Context `{UploadsHost}.

Lemma readImages_inv (files : list File) (a : App) :
  files <> [] -> uploads_inv a ->
  exists a', readImages files a = AppDone a' /\ uploads_inv a'
             /\ images a' = images a /\ canvasCount a' = canvasCount a.
Proof.
  intros N I. destruct files as [|f rest]; [contradiction|].
  unfold readImages. eexists. split; [reflexivity|].
  split; [|split; reflexivity].
  apply (uploads_inv_ext a); try reflexivity. exact I.
Qed.

Lemma readImages_resume_inv (k : nat) (a : App) :
  uploads_inv a ->
  exists a', readImages_resume k a = AppDone a' /\ uploads_inv a'.
Proof.
  intros I. unfold readImages_resume.
  destruct (nth_error (reads a) k) as [r|]; [|exists a; split; [reflexivity | exact I]].
  destruct (file_content (read_file r)) as [picture|];
    [|exists a; split; [reflexivity | exact I]].
  set (a0 := with_reads (remove_nth k (reads a)) a).
  assert (I0 : uploads_inv a0) by (apply (uploads_inv_ext a); try reflexivity; exact I).
  set (image := imageRecord r picture).
  assert (I1 := push_inv image a0 I0).
  set (a1 := renderUploadedImage image (with_images (images a0 ++ [image]) a0)) in *.
  assert (I2 : uploads_inv (indicateImageUpload a1))
    by (apply (uploads_inv_ext a1); try reflexivity; exact I1).
  destruct (read_rest r) as [|f rest] eqn:Rest.
  - destruct (activeListItem (indicateImageUpload a1)) eqn:Act.
    + eexists. split; [reflexivity | exact I2].
    + destruct (doneReadingImages_inv (indicateImageUpload a1) I2 Act)
        as (a' & first & D & I' & _).
      { unfold a1, a0. app_simpl. destruct (images a); discriminate. }
      exists a'. split; [exact D | exact I'].
  - destruct (readImages_inv (f :: rest) (indicateImageUpload a1)
                ltac:(discriminate) I2) as (a' & R & I' & _).
    rewrite R. cbn [app_final]. exists a'. split; [reflexivity | exact I'].
Qed.

Lemma readFiles_inv (files : list File) (a : App) :
  uploads_inv a ->
  exists a', readFiles files a = AppDone a' /\ uploads_inv a'.
Proof.
  intros I. unfold readFiles.
  destruct (filterOutNonImages files) as [|f rest] eqn:F.
  - exists a. split; [reflexivity | exact I].
  - destruct (readImages_inv (f :: rest) a ltac:(discriminate) I)
      as (a' & R & I' & _).
    exists a'. split; [exact R | exact I'].
Qed.

End UploadsInvariant.

(** A click on the thumbnail at position [k]: the image shown there
    becomes the active one and is loaded into the canvas. *)
Lemma imageClicked_inv (k : nat) (a : App) :
  uploads_inv a ->
  exists a',
    imageClicked k a = AppDone a'
    /\ uploads_inv a'
    /\ images a' = images a
    /\ canvasCount a' = canvasCount a
    /\ forall r, nth_error (images a) k = Some r ->
                 activeImageIndex a' = Z.of_nat k
                 /\ getActiveImage a' = Some r
                 /\ pendingSrc (canvasJs a') = Some (rec_blobUrl r).
Proof.
  intros I. unfold imageClicked.
  destruct (nth_error (listItems a) k) as [item|] eqn:E.
  2:{ exists a. split; [reflexivity|]. split; [exact I|]. split; [reflexivity|].
      split; [reflexivity|]. intros r Er. destruct I as ((Len & _) & _).
      assert (nth_error (listItems a) k <> None)
        by (apply nth_error_Some; rewrite Len; apply nth_error_Some; congruence).
      contradiction. }
  assert (I' := I). destruct I' as ((Len & Items & Act & Bound) & Ix & Rest).
  destruct (Items k item E) as (Ei & r & Er & _).
  rewrite Ei, at_index_nat, Er.
  destruct (Z.eqb_spec (Z.of_nat k) (activeImageIndex a)) as [Same|Diff];
    cbn [negb app_then].
  - eexists. split; [reflexivity|]. split; [apply uploads_inv_canvasJs, I|].
    split; [reflexivity|]. split; [reflexivity|]. intros r' Er'. injection Er' as <-.
    app_simpl. split; [symmetry; exact Same|].
    split; [unfold getActiveImage; app_simpl; rewrite <- Same, at_index_nat; exact Er|].
    reflexivity.
  - rewrite at_index_nat. change (images (with_activeImageIndex (Z.of_nat k) a))
      with (images a). rewrite Er. cbn [updateImagePreview app_then].
    set (a1 := with_preview (Some r) (with_activeImageIndex (Z.of_nat k) a)).
    assert (L1 : list_inv a1)
      by (apply (list_inv_ext a); try reflexivity;
          exact (conj Len (conj Items (conj Act Bound)))).
    destruct (highlightImage_list_inv k a1 L1) as (a2 & Hh & L2 & A2 & Fields).
    { change (listItems a1) with (listItems a). apply nth_error_Some. congruence. }
    rewrite Hh. cbn [app_then].
    destruct Fields as (Cj & Cc & Ie & Cl & Im2 & Ai & _).
    eexists. split; [reflexivity|]. app_simpl.
    split.
    { unfold uploads_inv. app_simpl. split.
      - apply (list_inv_ext a2); try reflexivity. exact L2.
      - rewrite A2, Ai, Ie, Cc, Cl. destruct Rest as (In_ & Gone & Quiet).
        split; [reflexivity|]. split; [exact In_|]. split; [|exact Quiet].
        intros F. destruct (Gone F) as (C1 & Ls & _).
        repeat split; try assumption. discriminate. }
    split; [exact Im2|]. split; [exact Cc|].
    intros r' Er'. injection Er' as <-.
    split; [exact Ai|]. split; [|reflexivity].
    unfold getActiveImage. app_simpl. rewrite Ai, Im2.
    change (activeImageIndex a1) with (Z.of_nat k).
    change (images a1) with (images a). rewrite at_index_nat. exact Er.
Qed.

Section UploadsRun.

Context `{UploadsHost}.

Lemma upload_step_inv (e : UploadEvent) (a : App) :
  uploads_inv a ->
  exists a', upload_step e a = AppDone a' /\ uploads_inv a'.
Proof.
  intros I. destruct e as [files|k|k]; cbn [upload_step].
  - apply readFiles_inv, I.
  - apply readImages_resume_inv, I.
  - destruct (imageClicked_inv k a I) as (a' & C & I' & _).
    exists a'. split; assumption.
Qed.

Lemma upload_run_inv (events : list UploadEvent) (a : App) :
  uploads_inv a ->
  exists a', upload_run events a = AppDone a' /\ uploads_inv a'.
Proof.
  revert a. induction events as [|e rest IH]; intros a I; cbn [upload_run].
  - exists a. split; [reflexivity | exact I].
  - destruct (upload_step_inv e a I) as (a1 & S1 & I1). rewrite S1.
    cbn [app_then]. apply IH, I1.
Qed.

Lemma reachable_inv (a : App) : reachable a -> uploads_inv a.
Proof.
  intros (events & s & w & h & R).
  destruct (upload_run_inv events (initial_app s w h) (initial_app_inv s w h))
    as (a' & R' & I). rewrite R in R'. injection R' as <-. exact I.
Qed.

End UploadsRun.

Section Uploads.

Context `{UploadsHost}.

(** X12.  The list of uploads never throws: from the page as loaded,
    every sequence of file choices, picture loads and thumbnail clicks
    runs to completion.  No block reads an image or a list item that is
    not there, and the canvas is not initialised a second time. *)
Theorem uploads_never_throw :
  forall (events : list UploadEvent) (s : State) (w h : Z),
    exists a, upload_run events (initial_app s w h) = AppDone a.
Proof.
  intros events s w h.
  destruct (upload_run_inv events (initial_app s w h) (initial_app_inv s w h))
    as (a & R & _).
  exists a. exact R.
Qed.

(** X13.  The thumbnail list mirrors the array of images: on every page
    that can be reached there are as many list items as images, the item
    at position k carries data-index k and shows the object URL of
    images[k].  So a click on the thumbnail of an image makes that image
    the active one and loads its URL into the canvas. *)
Theorem thumbnails_mirror_images :
  forall a : App,
    reachable a ->
    List.length (listItems a) = List.length (images a)
    /\ (forall (k : nat) (item : ListItem),
           nth_error (listItems a) k = Some item ->
           item_index item = Z.of_nat k
           /\ exists r, nth_error (images a) k = Some r
                        /\ item_src item = rec_blobUrl r)
    /\ (forall (k : nat) (r : ImageRecord),
           nth_error (images a) k = Some r ->
           exists a',
             upload_step (ThumbnailClicked k) a = AppDone a'
             /\ images a' = images a
             /\ getActiveImage a' = Some r
             /\ pendingSrc (canvasJs a') = Some (rec_blobUrl r)).
Proof.
  intros a Ra. assert (I := reachable_inv a Ra).
  assert (I' := I). destruct I' as ((Len & Items & _) & _).
  split; [exact Len|]. split; [exact Items|].
  intros k r Er. destruct (imageClicked_inv k a I) as (a' & C & _ & Im & _ & Act).
  exists a'. split; [exact C|]. split; [exact Im|].
  destruct (Act r Er) as (_ & G & P). split; assumption.
Qed.

(** X14.  At most one thumbnail is highlighted, and it is the one of the
    active image: on every page that can be reached, an item marked
    active is the item [activeListItem], its position is
    [activeImageIndex], and it shows the object URL of the image that
    [getActiveImage] returns. *)
Theorem highlight_is_active_image :
  forall a : App,
    reachable a ->
    forall (k : nat) (item : ListItem),
      nth_error (listItems a) k = Some item ->
      item_active item = true ->
      activeListItem a = Some k
      /\ activeImageIndex a = Z.of_nat k
      /\ (exists r, getActiveImage a = Some r /\ item_src item = rec_blobUrl r)
      /\ forall (j : nat) (other : ListItem),
           nth_error (listItems a) j = Some other ->
           item_active other = true -> j = k.
Proof.
  intros a Ra k item E T. assert (I := reachable_inv a Ra).
  destruct I as ((Len & Items & Act & Bound) & Ix & _).
  assert (A : activeListItem a = Some k) by (apply (Act k item E); exact T).
  split; [exact A|]. rewrite A in Ix. split; [exact Ix|]. split.
  - destruct (Items k item E) as (_ & r & Er & Es).
    exists r. split; [|exact Es].
    unfold getActiveImage. rewrite Ix, at_index_nat. exact Er.
  - intros j other Ej Tj. apply (Act j other Ej) in Tj. congruence.
Qed.

(** X15.  The canvas is created at most once: on every page that can be
    reached there is no canvas while the intro is shown, exactly one once
    it is removed, and the canvas listens to the pointer exactly when
    it exists. *)
Theorem canvas_created_once :
  forall a : App,
    reachable a ->
    (canvasCount a <= 1)%nat
    /\ (canvasCount a = 1%nat <-> introElement a = false)
    /\ (canvasListeners a = true <-> canvasCount a = 1%nat).
Proof.
  intros a Ra. assert (I := reachable_inv a Ra).
  destruct I as (_ & _ & Intro & Gone & Quiet).
  destruct (introElement a) eqn:E.
  - assert (C : canvasCount a = O) by (apply Intro; reflexivity).
    rewrite C, (Quiet eq_refl). repeat split; try lia; discriminate.
  - destruct (Gone eq_refl) as (C & L & _). rewrite C, L.
    repeat split; lia.
Qed.

(** X16.  The canvas is created by the picture load that completes a
    batch while no thumbnail is highlighted, and it starts on the first
    image: whenever a step takes a reachable page from no canvas to one,
    afterwards the first list item is highlighted, the active index is
    0, the canvas has the size of the window and listens to the pointer,
    its Area is empty and it is loading the object URL of images[0]. *)
Theorem first_batch_initialises_canvas :
  forall (e : UploadEvent) (a a' : App),
    reachable a ->
    upload_step e a = AppDone a' ->
    canvasCount a = O ->
    canvasCount a' = 1%nat ->
    exists first : ImageRecord,
      hd_error (images a') = Some first
      /\ (exists k, e = PictureLoaded k)
      /\ activeListItem a' = Some O
      /\ activeImageIndex a' = 0%Z
      /\ canvasListeners a' = true
      /\ canvasWidth (canvasJs a') = windowWidth a
      /\ canvasHeight (canvasJs a') = windowHeight a
      /\ area (canvasJs a') = mkArea 0 0 0 0
      /\ pendingSrc (canvasJs a') = Some (rec_blobUrl first).
Proof.
  intros e a a' Ra St C0 C1. assert (I := reachable_inv a Ra).
  destruct e as [files|k|k]; cbn [upload_step] in St.
  - exfalso. unfold readFiles in St.
    destruct (filterOutNonImages files) as [|f rest].
    + injection St as <-. lia.
    + destruct (readImages_inv (f :: rest) a ltac:(discriminate) I)
        as (a1 & R & _ & _ & Cc).
      rewrite R in St. injection St as <-. lia.
  - unfold readImages_resume in St.
    destruct (nth_error (reads a) k) as [r|];
      [|injection St as <-; exfalso; lia].
    destruct (file_content (read_file r)) as [picture|];
      [|injection St as <-; exfalso; lia].
    set (a0 := with_reads (remove_nth k (reads a)) a) in St.
    assert (I0 : uploads_inv a0)
      by (apply (uploads_inv_ext a); try reflexivity; exact I).
    set (image := imageRecord r picture) in St.
    assert (I1 := push_inv image a0 I0).
    set (a1 := renderUploadedImage image (with_images (images a0 ++ [image]) a0)) in *.
    assert (I2 : uploads_inv (indicateImageUpload a1))
      by (apply (uploads_inv_ext a1); try reflexivity; exact I1).
    destruct (read_rest r) as [|f rest].
    + destruct (activeListItem (indicateImageUpload a1)) eqn:Act.
      * injection St as <-. exfalso. unfold a1, a0 in C1. app_simpl. lia.
      * destruct (doneReadingImages_inv (indicateImageUpload a1) I2 Act)
          as (a2 & first & D & I' & Hd & Im & _ & _ & A2 & _ & _ & Cj).
        { unfold a1, a0. app_simpl. destruct (images a); discriminate. }
        rewrite D in St. injection St as <-.
        exists first. rewrite Im. split; [exact Hd|].
        split; [exists k; reflexivity|]. split; [exact A2|].
        destruct I' as (_ & Ix & Intro & Gone & _).
        rewrite A2 in Ix. split; [exact Ix|].
        split.
        { destruct (introElement a2) eqn:E.
          - assert (canvasCount a2 = O) by (apply Intro; reflexivity). lia.
          - apply (Gone eq_refl). }
        rewrite Cj. repeat split.
    + destruct (readImages_inv (f :: rest) (indicateImageUpload a1)
                  ltac:(discriminate) I2) as (a2 & R & _ & _ & Cc).
      rewrite R in St. injection St as <-. exfalso.
      rewrite Cc in C1. unfold a1, a0 in C1. app_simpl. lia.
  - exfalso. destruct (imageClicked_inv k a I) as (a1 & C & _ & _ & Cc & _).
    rewrite C in St. injection St as <-. lia.
Qed.

(** Reading a batch to its end, with no other read in flight. *)
Lemma batch_read (rest : list File) :
  forall (f : File) (url : string) (a : App),
    uploads_inv a ->
    reads a = [mkRead f url rest] ->
    Forall (fun file => file_content file <> None) (f :: rest) ->
    exists a',
      upload_run (repeat (PictureLoaded 0) (S (List.length rest))) a = AppDone a'
      /\ uploads_inv a'
      /\ map rec_file (images a') = map rec_file (images a) ++ f :: rest
      /\ reads a' = [].
Proof.
  induction rest as [|f' rest IH]; intros f url a I Rd Dec;
    cbn [repeat List.length upload_run upload_step];
    unfold readImages_resume; rewrite Rd; cbn [nth_error read_file];
    inversion Dec as [|? ? Df Dr]; subst;
    destruct (file_content f) as [picture|] eqn:Fc; try contradiction;
    cbn [read_rest remove_nth];
    set (a0 := with_reads [] a);
    assert (I0 : uploads_inv a0)
      by (apply (uploads_inv_ext a); try reflexivity; exact I);
    set (image := imageRecord (mkRead f url _) picture);
    assert (I1 := push_inv image a0 I0);
    set (a1 := renderUploadedImage image (with_images (images a0 ++ [image]) a0)) in *;
    assert (I2 : uploads_inv (indicateImageUpload a1))
      by (apply (uploads_inv_ext a1); try reflexivity; exact I1);
    assert (M : map rec_file (images (indicateImageUpload a1))
                = map rec_file (images a) ++ [f])
      by (unfold a1, a0; app_simpl; rewrite map_app; reflexivity).
  - destruct (activeListItem (indicateImageUpload a1)) eqn:Act.
    + cbn [app_then]. eexists. split; [reflexivity|]. split; [exact I2|].
      split; [exact M | reflexivity].
    + destruct (doneReadingImages_inv (indicateImageUpload a1) I2 Act)
        as (a2 & first & D & I' & _ & Im & R2 & _).
      { unfold a1, a0. app_simpl. destruct (images a); discriminate. }
      rewrite D. cbn [app_then]. exists a2. split; [reflexivity|].
      split; [exact I'|]. rewrite Im. split; [exact M | exact R2].
  - cbn [readImages app_final app_then].
    set (a2 := with_reads _ _).
    destruct (IH f' (objectURL (minted (indicateImageUpload a1))) a2)
      as (a' & R & I' & M' & E').
    + apply (uploads_inv_ext (indicateImageUpload a1)); try reflexivity. exact I2.
    + reflexivity.
    + exact Dr.
    + exists a'. cbn [repeat List.length] in R. split; [exact R|].
      split; [exact I'|]. split; [|exact E'].
      rewrite M'. change (images a2) with (images (indicateImageUpload a1)).
      rewrite M, <- app_assoc. reflexivity.
Qed.

(** X17.  A batch of chosen files is read in order: when no read is in
    flight and every file that passes the filter can be decoded, choosing
    the files and letting each picture load appends exactly the files
    whose type contains "image" to the images, in the order chosen, and
    leaves no read in flight.  Files of another type are never read. *)
Theorem batch_in_order :
  forall (files : list File) (a : App),
    reachable a ->
    reads a = [] ->
    Forall (fun file => file_content file <> None) (filterOutNonImages files) ->
    exists a',
      upload_run
        (FilesChosen files
         :: repeat (PictureLoaded 0) (List.length (filterOutNonImages files))) a
      = AppDone a'
      /\ map rec_file (images a') = map rec_file (images a) ++ filterOutNonImages files
      /\ reads a' = [].
Proof.
  intros files a Ra Rd Dec. assert (I := reachable_inv a Ra).
  cbn [upload_run upload_step]. unfold readFiles.
  destruct (filterOutNonImages files) as [|f rest].
  - cbn [repeat List.length app_then upload_run]. exists a.
    split; [reflexivity|]. split; [rewrite app_nil_r; reflexivity | exact Rd].
  - unfold readImages. cbn [app_then reads with_minted]. rewrite Rd. cbn [app].
    set (a1 := with_reads _ _).
    destruct (batch_read rest f (objectURL (minted a)) a1) as (a' & R & _ & M & E).
    + apply (uploads_inv_ext a); try reflexivity. exact I.
    + reflexivity.
    + exact Dec.
    + exists a'. split; [exact R|]. split; [exact M | exact E].
Qed.

(** X18.  [setActiveImage] on an index of the array makes that image the
    active one and highlights its thumbnail; on any other index it
    throws, after the active index has been overwritten, so that
    [getActiveImage] no longer returns an image. *)
Theorem setActiveImage_bounds :
  forall (index : Z) (a : App),
    reachable a ->
    ((0 <= index < Z.of_nat (List.length (images a)))%Z ->
     exists a',
       setActiveImage index a = AppDone a'
       /\ activeImageIndex a' = index
       /\ activeListItem a' = Some (Z.to_nat index)
       /\ getActiveImage a' = at_index (images a) index
       /\ getActiveImage a' <> None
       /\ preview a' = getActiveImage a'
       /\ list_inv a')
    /\ ((index < 0 \/ Z.of_nat (List.length (images a)) <= index)%Z ->
        exists a',
          setActiveImage index a = AppThrew TypeError a'
          /\ activeImageIndex a' = index
          /\ getActiveImage a' = None).
Proof.
  intros index a Ra. assert (I := reachable_inv a Ra).
  destruct I as (Li & _). assert (Li' := Li). destruct Li' as (Len & _).
  unfold setActiveImage. split.
  - intros B.
    assert (E : index = Z.of_nat (Z.to_nat index)) by lia.
    destruct (nth_error (images a) (Z.to_nat index)) as [r|] eqn:Er.
    2:{ apply nth_error_None in Er. lia. }
    assert (Ei : at_index (images a) index = Some r)
      by (rewrite E, at_index_nat; exact Er).
    assert (Ec : child a index = Some (Z.to_nat index)).
    { unfold child. rewrite E at 1. rewrite at_index_nat.
      destruct (nth_error (listItems a) (Z.to_nat index)) eqn:El; [reflexivity|].
      apply nth_error_None in El. lia. }
    rewrite Ei, Ec. cbn [updateImagePreview app_then].
    set (a1 := with_preview (Some r) (with_activeImageIndex index a)).
    assert (L1 : list_inv a1) by (apply (list_inv_ext a); try reflexivity; exact Li).
    destruct (highlightImage_list_inv (Z.to_nat index) a1 L1)
      as (a2 & Hh & L2 & A2 & _ & _ & _ & _ & Im & Ai & _ & _ & Pv & _).
    { change (listItems a1) with (listItems a). lia. }
    rewrite Hh. cbn [app_then]. eexists. split; [reflexivity|].
    unfold getActiveImage. app_simpl. rewrite Ai, Im, Pv.
    change (activeImageIndex a1) with index.
    change (images a1) with (images a). change (preview a1) with (Some r).
    rewrite Ei. split; [reflexivity|]. split; [exact A2|].
    split; [reflexivity|]. split; [discriminate|]. split; [reflexivity|].
    apply (list_inv_ext a2); try reflexivity. exact L2.
  - intros O. rewrite (at_index_outside (images a) index O).
    cbn [updateImagePreview app_then]. eexists. split; [reflexivity|].
    split; [reflexivity|]. unfold getActiveImage. app_simpl.
    apply at_index_outside. exact O.
Qed.

End Uploads.

Example filterOutNonImages_sample :
  filterOutNonImages [photo; notes; sketch] = [photo; sketch].
Proof. reflexivity. Qed.

Lemma sample_page_reachable : @reachable sample_host sample_page.
Proof.
  exists sample_events, sample_state, 800%Z, 600%Z. vm_compute. reflexivity.
Qed.

Lemma initial_app_reachable :
  @reachable sample_host (initial_app sample_state 800 600).
Proof. exists [], sample_state, 800%Z, 600%Z. reflexivity. Qed.

Lemma thumbnails_mirror_images_witness :
  List.length (listItems sample_page) = List.length (images sample_page)
  /\ exists (r : ImageRecord) (a' : App),
       nth_error (images sample_page) 1 = Some r
       /\ rec_name r = "sketch.jpg"%string
       /\ @upload_step sample_host (ThumbnailClicked 1) sample_page = AppDone a'
       /\ getActiveImage a' = Some r
       /\ pendingSrc (canvasJs a') = Some (rec_blobUrl r).
Proof.
  destruct (@thumbnails_mirror_images sample_host sample_page sample_page_reachable)
    as (L & _ & Click).
  split; [exact L|].
  destruct (nth_error (images sample_page) 1) as [r|] eqn:E;
    [|vm_compute in E; discriminate E].
  destruct (Click 1%nat r E) as (a' & S & _ & G & P).
  exists r, a'. split; [reflexivity|]. split.
  - vm_compute in E. injection E as <-. reflexivity.
  - split; [exact S|]. split; [exact G | exact P].
Defined.

Lemma highlight_is_active_image_witness :
  exists item : ListItem,
    nth_error (listItems sample_page) 0 = Some item
    /\ activeListItem sample_page = Some O
    /\ activeImageIndex sample_page = 0%Z.
Proof.
  destruct (nth_error (listItems sample_page) 0) as [item|] eqn:E;
    [|vm_compute in E; discriminate E].
  exists item. split; [reflexivity|].
  assert (T : item_active item = true)
    by (vm_compute in E; injection E as <-; reflexivity).
  destruct (@highlight_is_active_image sample_host sample_page
              sample_page_reachable O item E T) as (A & Ix & _).
  split; [exact A | exact Ix].
Defined.

Lemma canvas_created_once_witness :
  (canvasCount sample_page <= 1)%nat
  /\ (canvasListeners sample_page = true <-> canvasCount sample_page = 1%nat).
Proof.
  destruct (@canvas_created_once sample_host sample_page sample_page_reachable)
    as (C & _ & L).
  split; [exact C | exact L].
Defined.

Lemma first_batch_initialises_canvas_witness :
  let a := app_final (@upload_run sample_host [FilesChosen [photo]]
                        (initial_app sample_state 800 600)) in
  let a' := app_final (@upload_step sample_host (PictureLoaded 0) a) in
  exists first : ImageRecord,
    hd_error (images a') = Some first
    /\ activeListItem a' = Some O
    /\ canvasWidth (canvasJs a') = 800%Z
    /\ pendingSrc (canvasJs a') = Some (rec_blobUrl first).
Proof.
  intros a a'.
  assert (Ra : @reachable sample_host a).
  { exists [FilesChosen [photo]], sample_state, 800%Z, 600%Z.
    vm_compute. reflexivity. }
  assert (St : @upload_step sample_host (PictureLoaded 0) a = AppDone a')
    by (vm_compute; reflexivity).
  destruct (@first_batch_initialises_canvas sample_host (PictureLoaded 0) a a'
              Ra St eq_refl eq_refl)
    as (first & Hd & _ & Act & _ & _ & W & _ & _ & P).
  exists first. split; [exact Hd|]. split; [exact Act|].
  split; [exact W | exact P].
Defined.

Lemma batch_in_order_witness :
  exists a',
    @upload_run sample_host
      (FilesChosen [photo; notes; sketch]
       :: repeat (PictureLoaded 0)
            (List.length (filterOutNonImages [photo; notes; sketch])))
      (initial_app sample_state 800 600)
    = AppDone a'
    /\ map rec_file (images a') = [] ++ filterOutNonImages [photo; notes; sketch]
    /\ reads a' = [].
Proof.
  apply (@batch_in_order sample_host [photo; notes; sketch]
           (initial_app sample_state 800 600) initial_app_reachable eq_refl).
  repeat constructor; discriminate.
Defined.

Lemma setActiveImage_bounds_witness :
  (exists a',
      setActiveImage 1 sample_page = AppDone a'
      /\ activeImageIndex a' = 1%Z
      /\ activeListItem a' = Some (Z.to_nat 1))
  /\ exists a',
       setActiveImage 2 sample_page = AppThrew TypeError a'
       /\ getActiveImage a' = None.
Proof.
  destruct (@setActiveImage_bounds sample_host 1%Z sample_page sample_page_reachable)
    as (In_ & _).
  destruct (@setActiveImage_bounds sample_host 2%Z sample_page sample_page_reachable)
    as (_ & Out).
  split.
  - destruct In_ as (a' & S & Ix & A & _); [vm_compute; split; [discriminate | reflexivity]|].
    exists a'. split; [exact S|]. split; [exact Ix | exact A].
  - destruct Out as (a' & S & _ & G); [right; vm_compute; discriminate|].
    exists a'. split; [exact S | exact G].
Defined.
